(** * Streamlit_HuggingFace_Chat: response cache and streaming generation

    A shallow embedding of the caching and generation core of the
    repository:

    - [src/cache/memory_cache.py]   ([MemoryCache])
    - [src/cache/redis_cache.py]    ([RedisCache])
    - [src/api/huggingface.py]      ([SimpleCache], [HuggingFaceAPI])

    Conventions.  A Python [str] is the list of its code points, a [bytes]
    object the list of its byte values.  A [dict] is an association list in
    insertion order with pairwise distinct keys, because iteration order
    decides which entry [min] returns among equal timestamps.  A reading of
    [time.time()] is an explicit argument of every operation that takes one;
    readings and TTLs are exact numbers of one common unit.  A call that can
    raise returns a [call] value.  Log calls have no counterpart here. *)

From Stdlib Require Import String Ascii ZArith NArith Bool Lia List Sorted.
From Stdlib Require Import DecimalString DecimalPos DecimalZ.
Import ListNotations.

Set Implicit Arguments.

(** ** Python strings, bytes and exceptions *)

Definition pystr := list N.
Definition bytes := list N.

(** The code points of an ASCII literal. *)
Definition py (s : string) : pystr := map N_of_ascii (list_ascii_of_string s).

Fixpoint str_eqb (a b : pystr) : bool :=
  match a, b with
  | [], [] => true
  | x :: a', y :: b' => (x =? y)%N && str_eqb a' b'
  | _, _ => false
  end.

(** The exception classes the modelled code can meet. *)
Inductive pyexn :=
| ValueError
| KeyError
| TypeError
| IndexError
| AttributeError
| JSONDecodeError
| UnicodeDecodeError
| UnicodeEncodeError
| RecursionError
| RedisError
| RequestException (msg : pystr).

(** The outcome of a call: a returned value or a raised exception. *)
Inductive call (A : Type) :=
| Return (a : A)
| Raise (e : pyexn).
Arguments Return {A} a.
Arguments Raise {A} e.

Definition bind {A B} (c : call A) (k : A -> call B) : call B :=
  match c with
  | Return a => k a
  | Raise e => Raise e
  end.

Definition returns {A} (c : call A) : Prop := exists a, c = Return a.

(** ** Python dictionaries with [str] keys *)

Section PyDict.
Variable V : Type.

Definition pydict := list (pystr * V).

(** [d.get(key)] / [d[key]] for a present key. *)
Fixpoint dict_get (key : pystr) (d : pydict) : option V :=
  match d with
  | [] => None
  | (k, v) :: d' => if str_eqb k key then Some v else dict_get key d'
  end.

(** [key in d]. *)
Definition dict_in (key : pystr) (d : pydict) : bool :=
  match dict_get key d with Some _ => true | None => false end.

(** [del d[key]] for a present key; the other entries keep their order. *)
Fixpoint dict_del (key : pystr) (d : pydict) : pydict :=
  match d with
  | [] => []
  | (k, v) :: d' => if str_eqb k key then d' else (k, v) :: dict_del key d'
  end.

(** [d[key] = v]: a present key keeps its position, a new key goes last. *)
Fixpoint dict_set (key : pystr) (v : V) (d : pydict) : pydict :=
  match d with
  | [] => [(key, v)]
  | (k, v') :: d' =>
      if str_eqb k key then (k, v) :: d' else (k, v') :: dict_set key v d'
  end.

Definition dict_keys (d : pydict) : list pystr := map fst d.

(** Keys are pairwise distinct in every dictionary Python builds. *)
Definition dict_wf (d : pydict) : Prop := NoDup (dict_keys d).

End PyDict.

Arguments dict_get {V}.
Arguments dict_in {V}.
Arguments dict_del {V}.
Arguments dict_set {V}.
Arguments dict_keys {V}.
Arguments dict_wf {V}.

(** ** The bounded in-memory caches

    [MemoryCache] (memory_cache.py) and [SimpleCache] (huggingface.py) have
    the same three attributes: [cache], a dict from key to
    [(value, timestamp)], [max_size] and [ttl]. *)

Open Scope Z_scope.

Definition entry : Type := pystr * (pystr * Z).

Record bounded_cache := Cache {
  cache : pydict (pystr * Z);
  max_size : Z;
  ttl : Z
}.

Definition with_cache (self : bounded_cache) (d : pydict (pystr * Z)) : bounded_cache :=
  {| cache := d; max_size := max_size self; ttl := ttl self |}.

Definition timestamp_of (x : entry) : Z := snd (snd x).

(** [min(items, key=lambda x: x[1][1])]: the first item, in iteration order,
    whose timestamp no other item undercuts; [ValueError] on no items. *)
Fixpoint min_from (best : entry) (items : list entry) : entry :=
  match items with
  | [] => best
  | x :: items' =>
      min_from (if timestamp_of x <? timestamp_of best then x else best) items'
  end.

Definition py_min (items : list entry) : call entry :=
  match items with
  | [] => Raise ValueError
  | x :: items' => Return (min_from x items')
  end.

Definition len {A} (l : list A) : Z := Z.of_nat (length l).

Module MemoryCache.

(** [__init__(max_size)]; [CACHE_TTL] is the configured default. *)
Definition __init__ (CACHE_TTL max_size : Z) : bounded_cache :=
  {| cache := []; max_size := max_size; ttl := CACHE_TTL |}.

Definition get (self : bounded_cache) (now : Z) (key : pystr)
  : option pystr * bounded_cache :=
  match dict_get key (cache self) with
  | Some (value, timestamp) =>
      if now - timestamp <? ttl self then (Some value, self)
      else (None, with_cache self (dict_del key (cache self)))
  | None => (None, self)
  end.

Definition setex (self : bounded_cache) (now : Z)
    (key : pystr) (expire_time : Z) (value : pystr) : call bounded_cache :=
  bind
    (if max_size self <=? len (cache self) then
       bind (py_min (cache self)) (fun oldest =>
         Return (with_cache self (dict_del (fst oldest) (cache self))))
     else Return self)
    (fun self =>
       Return (with_cache self (dict_set key (value, now) (cache self)))).

Definition clear (self : bounded_cache) : bounded_cache :=
  with_cache self [].

End MemoryCache.

Module SimpleCache.

Definition __init__ (max_size ttl : Z) : bounded_cache :=
  {| cache := []; max_size := max_size; ttl := ttl |}.

Definition get (self : bounded_cache) (now : Z) (key : pystr)
  : option pystr * bounded_cache :=
  match dict_get key (cache self) with
  | Some (value, timestamp) =>
      if now - timestamp <? ttl self then (Some value, self)
      else (None, with_cache self (dict_del key (cache self)))
  | None => (None, self)
  end.

Definition setex (self : bounded_cache) (now : Z)
    (key : pystr) (expire_time : Z) (value : pystr) : call bounded_cache :=
  bind
    (if max_size self <=? len (cache self) then
       bind (py_min (cache self)) (fun oldest =>
         Return (with_cache self (dict_del (fst oldest) (cache self))))
     else Return self)
    (fun self =>
       Return (with_cache self (dict_set key (value, now) (cache self)))).

Definition clear (self : bounded_cache) : bounded_cache :=
  with_cache self [].

End SimpleCache.

(** One write to a cache: the clock reading at the call and its arguments. *)
Record write := Write_ {
  w_now : Z;
  w_key : pystr;
  w_expire : Z;
  w_value : pystr
}.

Definition entry_of (w : write) : entry := (w_key w, (w_value w, w_now w)).

(** A sequence of [setex] calls, stopping at the first that raises. *)
Fixpoint setex_all (setex : bounded_cache -> Z -> pystr -> Z -> pystr -> call bounded_cache)
    (self : bounded_cache) (ws : list write) : call bounded_cache :=
  match ws with
  | [] => Return self
  | w :: ws' =>
      bind (setex self (w_now w) (w_key w) (w_expire w) (w_value w))
           (fun self' => setex_all setex self' ws')
  end.

(** The states a cache object goes through: from [__init__] by the three
    methods, at any clock readings. *)
Inductive reachable (C T : Z) : bounded_cache -> Prop :=
| reach_init : reachable C T (MemoryCache.__init__ T C)
| reach_get : forall self now key,
    reachable C T self -> reachable C T (snd (MemoryCache.get self now key))
| reach_setex : forall self now key expire_time value self',
    reachable C T self ->
    MemoryCache.setex self now key expire_time value = Return self' ->
    reachable C T self'
| reach_clear : forall self,
    reachable C T self -> reachable C T (MemoryCache.clear self).

(** ** Text encodings used by the key derivation *)

Open Scope N_scope.

(** [str.encode()]: UTF-8; a surrogate code point raises
    [UnicodeEncodeError]. *)
Definition utf8_char (c : N) : call bytes :=
  if c <? 0x80 then Return [c]
  else if c <? 0x800 then
    Return [N.lor 0xC0 (N.shiftr c 6); N.lor 0x80 (N.land c 0x3F)]
  else if c <? 0x10000 then
    if (0xD800 <=? c) && (c <=? 0xDFFF) then Raise UnicodeEncodeError
    else Return [N.lor 0xE0 (N.shiftr c 12);
                 N.lor 0x80 (N.land (N.shiftr c 6) 0x3F);
                 N.lor 0x80 (N.land c 0x3F)]
  else if c <? 0x110000 then
    Return [N.lor 0xF0 (N.shiftr c 18);
            N.lor 0x80 (N.land (N.shiftr c 12) 0x3F);
            N.lor 0x80 (N.land (N.shiftr c 6) 0x3F);
            N.lor 0x80 (N.land c 0x3F)]
  else Raise UnicodeEncodeError.

Fixpoint encode (s : pystr) : call bytes :=
  match s with
  | [] => Return []
  | c :: s' =>
      bind (utf8_char c) (fun b => bind (encode s') (fun bs => Return (b ++ bs)))
  end.

(** One lowercase hexadecimal digit, as a code point. *)
Definition hex_digit (d : N) : N := if d <? 10 then 48 + d else 87 + d.

(** [format(n, '04x')] for [n < 0x10000]. *)
Definition hex4 (n : N) : pystr :=
  [hex_digit (N.land (N.shiftr n 12) 0xF); hex_digit (N.land (N.shiftr n 8) 0xF);
   hex_digit (N.land (N.shiftr n 4) 0xF); hex_digit (N.land n 0xF)].

(** ** MD5 (RFC 1321), as [hashlib.md5(data).hexdigest()] *)

Module MD5.

Definition mask32 : N := 0xFFFFFFFF.
Definition add32 (a b : N) : N := N.land (a + b) mask32.
Definition not32 (a : N) : N := N.lxor a mask32.
Definition rotl32 (x c : N) : N :=
  N.lor (N.land (N.shiftl x c) mask32) (N.shiftr x (32 - c)).

Definition shifts : list N :=
  [7; 12; 17; 22; 7; 12; 17; 22; 7; 12; 17; 22; 7; 12; 17; 22;
   5; 9; 14; 20; 5; 9; 14; 20; 5; 9; 14; 20; 5; 9; 14; 20;
   4; 11; 16; 23; 4; 11; 16; 23; 4; 11; 16; 23; 4; 11; 16; 23;
   6; 10; 15; 21; 6; 10; 15; 21; 6; 10; 15; 21; 6; 10; 15; 21].

Definition sines : list N :=
  [0xd76aa478; 0xe8c7b756; 0x242070db; 0xc1bdceee;
   0xf57c0faf; 0x4787c62a; 0xa8304613; 0xfd469501;
   0x698098d8; 0x8b44f7af; 0xffff5bb1; 0x895cd7be;
   0x6b901122; 0xfd987193; 0xa679438e; 0x49b40821;
   0xf61e2562; 0xc040b340; 0x265e5a51; 0xe9b6c7aa;
   0xd62f105d; 0x02441453; 0xd8a1e681; 0xe7d3fbc8;
   0x21e1cde6; 0xc33707d6; 0xf4d50d87; 0x455a14ed;
   0xa9e3e905; 0xfcefa3f8; 0x676f02d9; 0x8d2a4c8a;
   0xfffa3942; 0x8771f681; 0x6d9d6122; 0xfde5380c;
   0xa4beea44; 0x4bdecfa9; 0xf6bb4b60; 0xbebfbc70;
   0x289b7ec6; 0xeaa127fa; 0xd4ef3085; 0x04881d05;
   0xd9d4d039; 0xe6db99e5; 0x1fa27cf8; 0xc4ac5665;
   0xf4292244; 0x432aff97; 0xab9423a7; 0xfc93a039;
   0x655b59c3; 0x8f0ccc92; 0xffeff47d; 0x85845dd1;
   0x6fa87e4f; 0xfe2ce6e0; 0xa3014314; 0x4e0811a1;
   0xf7537e82; 0xbd3af235; 0x2ad7d2bb; 0xeb86d391].

Record state := State { sa : N; sb : N; sc : N; sd : N }.

Definition init : state :=
  {| sa := 0x67452301; sb := 0xefcdab89; sc := 0x98badcfe; sd := 0x10325476 |}.

(** Message padding: a one bit, zeros up to 56 modulo 64 bytes, then the
    bit length as a 64-bit little-endian number. *)
Fixpoint le_bytes (n : nat) (x : N) : bytes :=
  match n with
  | O => []
  | S n' => N.land x 0xFF :: le_bytes n' (N.shiftr x 8)
  end.

Definition pad (msg : bytes) : bytes :=
  let l := N.of_nat (length msg) in
  let zeros := N.to_nat ((119 - l mod 64) mod 64) in
  msg ++ [0x80] ++ repeat 0 zeros ++ le_bytes 8 (N.land (8 * l) 0xFFFFFFFFFFFFFFFF).

Definition word_le (b : bytes) : N :=
  nth 0 b 0 + N.shiftl (nth 1 b 0) 8 + N.shiftl (nth 2 b 0) 16
  + N.shiftl (nth 3 b 0) 24.

Fixpoint words (n : nat) (b : bytes) : list N :=
  match n with
  | O => []
  | S n' => word_le b :: words n' (skipn 4 b)
  end.

(** One of the 64 operations on a block of sixteen words. *)
Definition step (m : list N) (s : state) (i : nat) : state :=
  let '(f, g) :=
    match Nat.div i 16 with
    | 0%nat => (N.lor (N.land (sb s) (sc s)) (N.land (not32 (sb s)) (sd s)), i)
    | 1%nat => (N.lor (N.land (sd s) (sb s)) (N.land (not32 (sd s)) (sc s)),
                Nat.modulo (5 * i + 1) 16)
    | 2%nat => (N.lxor (sb s) (N.lxor (sc s) (sd s)), Nat.modulo (3 * i + 5) 16)
    | _ => (N.lxor (sc s) (N.lor (sb s) (not32 (sd s))), Nat.modulo (7 * i) 16)
    end in
  let f := add32 (add32 (add32 f (sa s)) (nth i sines 0)) (nth g m 0) in
  {| sa := sd s; sd := sc s; sc := sb s;
     sb := add32 (sb s) (rotl32 f (nth i shifts 0)) |}.

Definition block (s : state) (b : bytes) : state :=
  let r := fold_left (step (words 16 b)) (seq 0 64) s in
  {| sa := add32 (sa s) (sa r); sb := add32 (sb s) (sb r);
     sc := add32 (sc s) (sc r); sd := add32 (sd s) (sd r) |}.

Fixpoint blocks (n : nat) (s : state) (b : bytes) : state :=
  match n with
  | O => s
  | S n' => blocks n' (block s (firstn 64 b)) (skipn 64 b)
  end.

Definition digest (msg : bytes) : bytes :=
  let p := pad msg in
  let s := blocks (Nat.div (length p) 64) init p in
  le_bytes 4 (sa s) ++ le_bytes 4 (sb s) ++ le_bytes 4 (sc s) ++ le_bytes 4 (sd s).

Definition hexdigest (msg : bytes) : pystr :=
  flat_map (fun b => [hex_digit (N.shiftr b 4); hex_digit (N.land b 0xF)])
           (digest msg).

End MD5.

(** ** JSON values and [json.dumps]

    A [float] occurs in this program only as a parameter value that is
    serialised; it is represented by the text [json.dumps] emits for it
    ([float.__repr__], or [NaN], [Infinity], [-Infinity]). *)

Unset Elimination Schemes.
Inductive json :=
| JNull
| JBool (b : bool)
| JInt (z : Z)
| JFloat (text : pystr)
| JStr (s : pystr)
| JArr (items : list json)
| JObj (d : list (pystr * json)).
Set Elimination Schemes.

(** [ESCAPE_DCT] and [replace] of [json.encoder.py_encode_basestring_ascii]:
    the replacement of one character. *)
Definition escape_char (c : N) : pystr :=
  if c =? 92 then [92; 92]
  else if c =? 34 then [92; 34]
  else if c =? 8 then [92; 98]
  else if c =? 12 then [92; 102]
  else if c =? 10 then [92; 110]
  else if c =? 13 then [92; 114]
  else if c =? 9 then [92; 116]
  else if (32 <=? c) && (c <=? 126) then [c]
  else if c <? 0x10000 then [92; 117] ++ hex4 c
  else
    let n := c - 0x10000 in
    let s1 := N.lor 0xd800 (N.land (N.shiftr n 10) 0x3ff) in
    let s2 := N.lor 0xdc00 (N.land n 0x3ff) in
    [92; 117] ++ hex4 s1 ++ [92; 117] ++ hex4 s2.

(** A [str] as a JSON string literal ([ensure_ascii=True]). *)
Definition json_string (s : pystr) : pystr :=
  [34] ++ flat_map escape_char s ++ [34].

(** [int.__repr__]. *)
Definition int_repr (z : Z) : pystr :=
  py (NilZero.string_of_int (Z.to_int z)).

(** [sep.join(parts)]. *)
Fixpoint join (sep : pystr) (parts : list pystr) : pystr :=
  match parts with
  | [] => []
  | [p] => p
  | p :: parts' => p ++ sep ++ join sep parts'
  end.

(** [a < b] on [str]: lexicographic by code point. *)
Fixpoint str_ltb (a b : pystr) : bool :=
  match a, b with
  | _, [] => false
  | [], _ :: _ => true
  | x :: a', y :: b' =>
      if x <? y then true else if y <? x then false else str_ltb a' b'
  end.

(** [sorted(items)] for dict items: by key, stable. *)
Fixpoint insert_by_key {A} (kv : pystr * A) (l : list (pystr * A)) : list (pystr * A) :=
  match l with
  | [] => [kv]
  | kv' :: l' =>
      if str_ltb (fst kv') (fst kv) then kv' :: insert_by_key kv l' else kv :: l
  end.

Definition sorted_items {A} (d : list (pystr * A)) : list (pystr * A) :=
  fold_right insert_by_key [] d.

(** [json.dumps(obj, sort_keys=...)] with the default separators. *)
Fixpoint json_dumps (sort_keys : bool) (obj : json) : pystr :=
  match obj with
  | JNull => py "null"
  | JBool true => py "true"
  | JBool false => py "false"
  | JInt z => int_repr z
  | JFloat text => text
  | JStr s => json_string s
  | JArr items =>
      py "[" ++ join (py ", ") (map (json_dumps sort_keys) items) ++ py "]"
  | JObj d =>
      let dumped :=
        map (fun kv => match kv with (k, v) => (k, json_dumps sort_keys v) end) d in
      let items := if sort_keys then sorted_items dumped else dumped in
      py "{"
      ++ join (py ", ")
           (map (fun kv => json_string (fst kv) ++ py ": " ++ snd kv) items)
      ++ py "}"
  end.

Close Scope N_scope.

(** ** Streamlit session state

    The entries of [st.session_state] the client reads and writes.  A
    missing [messages] entry and an empty list take the same branch in both
    functions that read it, so both are the empty list here; the other
    entries are [None] when missing. *)

Record message := Message { role : pystr; content : pystr }.

Record session_state := Session {
  messages : list message;
  max_tokens : option json;
  temperature : option json;
  top_p : option json;
  rep_penalty : option json;
  total_tokens_sent : option Z;
  total_tokens_received : option Z
}.

(** [d.get(key, default)] on the session state. *)
Definition get_default {A} (o : option A) (default : A) : A :=
  match o with Some a => a | None => default end.

(** ** Key derivation ([HuggingFaceAPI._get_cache_key], [_get_params]) *)

(** [messages[-10:-1] if len(messages) > 1 else []]. *)
Definition last_messages (msgs : list message) : list message :=
  if (1 <? length msgs)%nat
  then skipn (length msgs - 10) (firstn (length msgs - 1) msgs)
  else [].

(** The [context] string of [_get_cache_key]. *)
Definition cache_context (st : session_state) : pystr :=
  match messages st with
  | [] => []
  | _ :: _ =>
      json_dumps true
        (JArr (map (fun msg =>
                      JObj [(py "role", JStr (role msg));
                            (py "content", JStr (firstn 100 (content msg)))])
                   (last_messages (messages st))))
  end.

(** The [key_content] string of [_get_cache_key]. *)
Definition key_content (st : session_state) (prompt : pystr)
    (params : pydict json) : pystr :=
  py "v1:" ++ prompt ++ py ":" ++ cache_context st ++ py ":"
  ++ json_dumps true (JObj params).

Definition _get_cache_key (st : session_state) (prompt : pystr)
    (params : pydict json) : call pystr :=
  bind (encode (key_content st prompt params)) (fun data =>
    Return (py "hf_cache:" ++ MD5.hexdigest data)).

Definition _get_params (st : session_state) : pydict json :=
  [(py "max_new_tokens", get_default (max_tokens st) (JInt 1024));
   (py "temperature", get_default (temperature st) (JFloat (py "0.7")));
   (py "top_p", get_default (top_p st) (JFloat (py "0.9")));
   (py "repetition_penalty", get_default (rep_penalty st) (JFloat (py "1.1")));
   (py "do_sample", JBool true);
   (py "return_full_text", JBool false)].

(** The parameters each entry point passes to [_get_cache_key]:
    [generate_stream] first sets [params["stream"] = True]. *)
Definition generate_params (st : session_state) : pydict json :=
  _get_params st.

Definition generate_stream_params (st : session_state) : pydict json :=
  dict_set (py "stream") (JBool true) (_get_params st).

(** The trailing window in the words of the specification: the last nine
    turns before the live prompt, each as its role and the first hundred
    characters of its content. *)
Definition trailing_window (msgs : list message) : list (pystr * pystr) :=
  map (fun m => (role m, firstn 100 (content m)))
      (skipn (length (removelast msgs) - 9) (removelast msgs)).

(** ** [RedisCache] (redis_cache.py)

    The Redis client is an external collaborator: each of the three
    commands used either returns or raises.  [get] replies with a [str] or
    with [bytes], depending on how the client was configured. *)

Open Scope N_scope.

(** [bytes.decode("utf-8")]: strict UTF-8. *)
Definition continuation (b : N) : bool := (0x80 <=? b) && (b <=? 0xBF).

Fixpoint decode (data : bytes) : call pystr :=
  match data with
  | [] => Return []
  | b0 :: rest =>
      if b0 <? 0x80 then bind (decode rest) (fun s => Return (b0 :: s))
      else
        match rest with
        | b1 :: rest1 =>
            if (0xC2 <=? b0) && (b0 <=? 0xDF) then
              if continuation b1 then
                bind (decode rest1) (fun s =>
                  Return (N.lor (N.shiftl (N.land b0 0x1F) 6) (N.land b1 0x3F) :: s))
              else Raise UnicodeDecodeError
            else
              match rest1 with
              | b2 :: rest2 =>
                  if (0xE0 <=? b0) && (b0 <=? 0xEF) then
                    if continuation b1 && continuation b2
                       && negb ((b0 =? 0xE0) && (b1 <? 0xA0))
                       && negb ((b0 =? 0xED) && (0x9F <? b1))
                    then
                      bind (decode rest2) (fun s =>
                        Return (N.lor (N.shiftl (N.land b0 0x0F) 12)
                                  (N.lor (N.shiftl (N.land b1 0x3F) 6)
                                         (N.land b2 0x3F)) :: s))
                    else Raise UnicodeDecodeError
                  else
                    match rest2 with
                    | b3 :: rest3 =>
                        if (0xF0 <=? b0) && (b0 <=? 0xF4)
                           && continuation b1 && continuation b2 && continuation b3
                           && negb ((b0 =? 0xF0) && (b1 <? 0x90))
                           && negb ((b0 =? 0xF4) && (0x8F <? b1))
                        then
                          bind (decode rest3) (fun s =>
                            Return (N.lor (N.shiftl (N.land b0 0x07) 18)
                                      (N.lor (N.shiftl (N.land b1 0x3F) 12)
                                         (N.lor (N.shiftl (N.land b2 0x3F) 6)
                                                (N.land b3 0x3F))) :: s))
                        else Raise UnicodeDecodeError
                    | [] => Raise UnicodeDecodeError
                    end
              | [] => Raise UnicodeDecodeError
              end
        | [] => Raise UnicodeDecodeError
        end
  end.

(** [str.isspace()], the separators of [str.split()]. *)
Definition isspace (c : N) : bool :=
  ((0x09 <=? c) && (c <=? 0x0D)) || ((0x1C <=? c) && (c <=? 0x20))
  || (c =? 0x85) || (c =? 0xA0) || (c =? 0x1680)
  || ((0x2000 <=? c) && (c <=? 0x200A))
  || (c =? 0x2028) || (c =? 0x2029) || (c =? 0x202F) || (c =? 0x205F)
  || (c =? 0x3000).

Close Scope N_scope.

(** [len(s.split())]. *)
Fixpoint count_words (in_word : bool) (s : pystr) : Z :=
  match s with
  | [] => 0
  | c :: s' =>
      if isspace c then count_words false s'
      else (if in_word then 0 else 1) + count_words true s'
  end.

Definition word_count (s : pystr) : Z := count_words false s.

(** [b.startswith(prefix)]. *)
Fixpoint startswith (prefix b : bytes) : bool :=
  match prefix, b with
  | [], _ => true
  | _ :: _, [] => false
  | x :: prefix', y :: b' => (x =? y)%N && startswith prefix' b'
  end.

Inductive redis_value :=
| RStr (s : pystr)
| RBytes (b : bytes).

Module RedisCache.

Record client := Client {
  client_get : pystr -> call (option redis_value);
  client_setex : pystr -> Z -> pystr -> call unit;
  client_flushall : call unit
}.

(** [if value:] on a reply. *)
Definition nonempty (value : option redis_value) : option redis_value :=
  match value with
  | Some (RStr []) | Some (RBytes []) | None => None
  | Some v => Some v
  end.

(** The [try] body of [get]. *)
Definition get_body (self : client) (key : pystr) : call (option pystr) :=
  bind (client_get self key) (fun value =>
    match nonempty value with
    | Some (RBytes b) => bind (decode b) (fun s => Return (Some s))
    | Some (RStr _) => Raise AttributeError
    | None => Return None
    end).

Definition get (self : client) (key : pystr) : option pystr :=
  match get_body self key with
  | Return r => r
  | Raise _ => None
  end.

Definition setex (self : client) (key : pystr) (expire_time : Z)
    (value : pystr) : unit :=
  match client_setex self key expire_time value with
  | Return _ => tt
  | Raise _ => tt
  end.

Definition clear (self : client) : unit :=
  match client_flushall self with
  | Return _ => tt
  | Raise _ => tt
  end.

End RedisCache.

(** ** [HuggingFaceAPI] (huggingface.py)

    The client builds its Redis connection with [decode_responses=True], so
    [get] replies are [str]. *)

Record redis := Redis {
  redis_get : pystr -> call (option pystr);
  redis_setex : pystr -> Z -> pystr -> call unit;
  redis_flushall : call unit
}.

Record api := Api {
  redis_client : option redis;
  simple_cache : bounded_cache;
  cache_ttl : Z
}.

Definition with_simple_cache (self : api) (c : bounded_cache) : api :=
  {| redis_client := redis_client self; simple_cache := c;
     cache_ttl := cache_ttl self |}.

(** [__init__]: [connection] is what [initialize_redis()] returned. *)
Definition api_init (CACHE_TTL MAX_CACHE_SIZE : Z) (connection : option redis) : api :=
  {| redis_client := connection;
     simple_cache := SimpleCache.__init__ MAX_CACHE_SIZE CACHE_TTL;
     cache_ttl := CACHE_TTL |}.

Definition get_from_cache (self : api) (now : Z) (cache_key : pystr)
  : option pystr * api :=
  match redis_client self with
  | Some client =>
      match redis_get client cache_key with
      | Return response => (response, self)
      | Raise _ => (None, self)
      end
  | None =>
      let (response, c) := SimpleCache.get (simple_cache self) now cache_key in
      (response, with_simple_cache self c)
  end.

(** [save_to_cache(cache_key, response)] with the default [expire_time]. *)
Definition save_to_cache (self : api) (now : Z) (cache_key response : pystr) : api :=
  match redis_client self with
  | Some client =>
      match redis_setex client cache_key (cache_ttl self) response with
      | Return _ => self
      | Raise _ => self
      end
  | None =>
      match SimpleCache.setex (simple_cache self) now cache_key (cache_ttl self) response with
      | Return c => with_simple_cache self c
      | Raise _ => self
      end
  end.

Definition clear_cache (self : api) : api :=
  match redis_client self with
  | Some client =>
      match redis_flushall client with
      | Return _ => self
      | Raise _ => self
      end
  | None => with_simple_cache self (SimpleCache.clear (simple_cache self))
  end.

Definition system_prompt : pystr :=
  py "You are a helpful AI coding assistant. You provide clear, concise, and accurate responses.".

Definition format_prompt (st : session_state) (text : pystr) : pystr :=
  let conversation_context :=
    match messages st with
    | [] => []
    | _ :: _ =>
        flat_map (fun msg =>
                    let role := if str_eqb (role msg) (py "user")
                                then py "user" else py "assistant" in
                    py "<|im_start|>" ++ role ++ [10%N] ++ content msg ++ [10%N]
                    ++ py "<|im_end|>" ++ [10%N])
                 (last_messages (messages st))
    end in
  py "<|im_start|>system" ++ [10%N] ++ system_prompt ++ [10%N]
  ++ py "<|im_end|>" ++ [10%N] ++ conversation_context
  ++ py "<|im_start|>user" ++ [10%N] ++ text ++ [10%N]
  ++ py "<|im_end|>" ++ [10%N] ++ py "<|im_start|>assistant" ++ [10%N].

(** The two counter updates of [generate_stream]. *)
Definition add_tokens (st : session_state) (sent received : Z) : session_state :=
  {| messages := messages st; max_tokens := max_tokens st;
     temperature := temperature st; top_p := top_p st;
     rep_penalty := rep_penalty st;
     total_tokens_sent := Some (get_default (total_tokens_sent st) 0 + sent);
     total_tokens_received :=
       Some (get_default (total_tokens_received st) 0 + received) |}.

(** What the HTTP exchange of one call does: [requests.post] or
    [raise_for_status] raises a [RequestException] whose text is [e], or
    [iter_lines] delivers [lines] and then ends, or raises a
    [RequestException] after them. *)
Inductive http_response :=
| RequestFailed (e : pystr)
| Streaming (lines : list bytes) (broken : option pystr).

(** The effect of one iteration of the line loop. *)
Inductive line_effect :=
| Skipped
| Text (fragments : list pystr) (text : pystr) (tokens : Z)
| Uncaught (e : pyexn).

(** Loop variables of [generate_stream], with the fragments yielded so far. *)
Record progress := Progress {
  yielded : list pystr;
  full_response : pystr;
  tokens_received : Z
}.

(** One complete consumption of the generator: the fragments it yielded,
    how it ended, the call to [save_to_cache] it made if any, and the state
    it left. *)
Record run := Run {
  fragments : list pystr;
  outcome : call unit;
  saved : option (pystr * pystr);
  api_after : api;
  session_after : session_state
}.

Section Generation.

(** [json.loads] on a line of the response, from the standard library:
    the parsed value, [JSONDecodeError], or another exception (a line
    that is not UTF-8 raises [UnicodeDecodeError]).  An object is parsed
    to a [dict], so the keys of a [JObj] are distinct. *)
Variable json_loads : bytes -> call json.

(** The statements under [try] after [json.loads], on a parsed chunk. *)
Definition on_chunk (chunk : json) : call line_effect :=
  let chunk :=
    match chunk with
    | JArr (first :: _) => first
    | _ => chunk
    end in
  match chunk with
  | JObj d =>
      match dict_get (py "generated_text") d with
      | Some (JStr text) =>
          Return (Text (map (fun char => [char]) text) text (word_count text))
      | Some _ => Raise TypeError
      | None =>
          match dict_get (py "token") d with
          | Some (JObj token) =>
              match dict_get (py "text") token with
              | None => Return (Text [[]] [] 1)
              | Some (JStr text) => Return (Text [text] text 1)
              | Some _ => Raise TypeError
              end
          | _ => Return Skipped
          end
      end
  | _ => Return Skipped
  end.

(** [if line.startswith(b"data: "): line = line[6:]]. *)
Definition payload (line : bytes) : bytes :=
  if startswith (py "data: ") line then skipn 6 line else line.

(** The body of the [for] loop, with its two [except] clauses. *)
Definition process_line (line : bytes) : line_effect :=
  match line with
  | [] => Skipped
  | _ :: _ =>
      if str_eqb line (py "data: [DONE]") then Skipped
      else
        match bind (json_loads (payload line)) on_chunk with
        | Return effect => effect
        | Raise JSONDecodeError => Skipped
        | Raise KeyError | Raise TypeError | Raise IndexError => Skipped
        | Raise e => Uncaught e
        end
  end.

Fixpoint read_lines (lines : list bytes) (acc : progress)
  : progress * option pyexn :=
  match lines with
  | [] => (acc, None)
  | line :: lines' =>
      match process_line line with
      | Skipped => read_lines lines' acc
      | Text frags text n =>
          read_lines lines'
            {| yielded := yielded acc ++ frags;
               full_response := full_response acc ++ text;
               tokens_received := tokens_received acc + n |}
      | Uncaught e => (acc, Some e)
      end
  end.

Definition start : progress :=
  {| yielded := []; full_response := []; tokens_received := 0 |}.

(** The statements under the outer [try].  [t_get] and [t_set] are the
    clock readings at the cache lookup and at the cache write. *)
Definition generate_stream_body (self : api) (st : session_state)
    (t_get t_set : Z) (prompt : pystr) (http : http_response) : run :=
  let params := generate_stream_params st in
  let formatted_prompt := format_prompt st prompt in
  let tokens_sent := word_count formatted_prompt in
  match _get_cache_key st prompt params with
  | Raise e =>
      {| fragments := []; outcome := Raise e; saved := None;
         api_after := self; session_after := st |}
  | Return cache_key =>
      let (cached_response, self) := get_from_cache self t_get cache_key in
      match cached_response with
      | Some (char :: chars) =>
          {| fragments := map (fun char => [char]) (char :: chars);
             outcome := Return tt; saved := None; api_after := self;
             session_after :=
               add_tokens st tokens_sent (word_count (char :: chars)) |}
      | _ =>
          match http with
          | RequestFailed e =>
              {| fragments := []; outcome := Raise (RequestException e);
                 saved := None; api_after := self; session_after := st |}
          | Streaming lines broken =>
              match read_lines lines start with
              | (acc, Some e) =>
                  {| fragments := yielded acc; outcome := Raise e;
                     saved := None; api_after := self; session_after := st |}
              | (acc, None) =>
                  match broken with
                  | Some e =>
                      {| fragments := yielded acc;
                         outcome := Raise (RequestException e);
                         saved := None; api_after := self; session_after := st |}
                  | None =>
                      match full_response acc with
                      | [] =>
                          {| fragments := yielded acc; outcome := Return tt;
                             saved := None; api_after := self;
                             session_after := st |}
                      | _ :: _ =>
                          {| fragments := yielded acc; outcome := Return tt;
                             saved := Some (cache_key, full_response acc);
                             api_after :=
                               save_to_cache self t_set cache_key (full_response acc);
                             session_after :=
                               add_tokens st tokens_sent (tokens_received acc) |}
                      end
                  end
              end
          end
      end
  end.

(** [generate_stream]: the body under [except RequestException]. *)
Definition generate_stream (self : api) (st : session_state)
    (t_get t_set : Z) (prompt : pystr) (http : http_response) : run :=
  let r := generate_stream_body self st t_get t_set prompt http in
  match outcome r with
  | Raise (RequestException e) =>
      {| fragments := fragments r ++ [py "Error: " ++ e];
         outcome := Return tt; saved := saved r;
         api_after := api_after r; session_after := session_after r |}
  | _ => r
  end.

End Generation.

(** [if cached_response:] fails on [None] and on the empty string. *)
Definition falsy (response : option pystr) : Prop :=
  response = None \/ response = Some [].


(** ** Reading a JSON string literal back

    The inverse of [escape_char], used to show that distinct strings have
    distinct literals. *)

Open Scope N_scope.

(** A Unicode scalar value: a code point that is not a surrogate. *)
Definition scalar (c : N) : Prop := c < 0xD800 \/ (0xE000 <= c /\ c < 0x110000).

Definition unhex (d : N) : N := if d <? 58 then d - 48 else d - 87.

Definition unhex4 (a b c d : N) : N :=
  unhex a * 4096 + unhex b * 256 + unhex c * 16 + unhex d.

(** The character a literal body starts with, and the rest of the body. *)
Definition unescape_one (s : pystr) : option (N * pystr) :=
  match s with
  | [] => None
  | c :: r =>
      if c =? 92 then
        match r with
        | [] => None
        | e :: r' =>
            if e =? 92 then Some (92, r')
            else if e =? 34 then Some (34, r')
            else if e =? 98 then Some (8, r')
            else if e =? 102 then Some (12, r')
            else if e =? 110 then Some (10, r')
            else if e =? 114 then Some (13, r')
            else if e =? 116 then Some (9, r')
            else
              match r' with
              | h3 :: h2 :: h1 :: h0 :: r'' =>
                  let n := unhex4 h3 h2 h1 h0 in
                  if (0xD800 <=? n) && (n <? 0xDC00) then
                    match r'' with
                    | _ :: _ :: l3 :: l2 :: l1 :: l0 :: r''' =>
                        Some (0x10000 + (n - 0xD800) * 1024
                              + (unhex4 l3 l2 l1 l0 - 0xDC00), r''')
                    | _ => None
                    end
                  else Some (n, r'')
              | _ => None
              end
        end
      else Some (c, r)
  end.

Close Scope N_scope.

(** The session with its message list replaced. *)
Definition with_messages (st : session_state) (msgs : list message) : session_state :=
  {| messages := msgs; max_tokens := max_tokens st;
     temperature := temperature st; top_p := top_p st;
     rep_penalty := rep_penalty st;
     total_tokens_sent := total_tokens_sent st;
     total_tokens_received := total_tokens_received st |}.

(** A message with its content replaced. *)
Definition with_content (msg : message) (text : pystr) : message :=
  {| role := role msg; content := text |}.

(** What holds of every text [json.dumps] emits for a float: it is one of
    [NaN], [Infinity], [-Infinity], or it is made of digits, signs, a point
    and an [e], with a point or an [e] among them ([float.__repr__] writes
    [1.0], [0.7], [1e-05]). *)
Definition float_char (c : N) : bool :=
  ((48 <=? c) && (c <=? 57) || (c =? 43) || (c =? 45) || (c =? 46)
   || (c =? 101))%N.

Definition float_text (text : pystr) : bool :=
  str_eqb text (py "NaN") || str_eqb text (py "Infinity")
  || str_eqb text (py "-Infinity")
  || (forallb float_char text
      && existsb (fun c => (c =? 46) || (c =? 101))%N text).

(** The characters of [int.__repr__]. *)
Definition sign_or_digit (c : N) : Prop := (48 <= c <= 57)%N \/ c = 45%N.

(** A value that is no container: [None], a [bool], an [int], a [float], or
    a [str] of Unicode scalar values. *)
Definition simple_value (v : json) : Prop :=
  match v with
  | JNull | JBool _ | JInt _ => True
  | JFloat text => float_text text = true
  | JStr s => Forall scalar s
  | JArr _ | JObj _ => False
  end.

(** The text before and after one part of a joined list. *)
Fixpoint join_before (sep : pystr) (parts : list pystr) : pystr :=
  match parts with
  | [] => []
  | p :: parts' => p ++ sep ++ join_before sep parts'
  end.

Definition join_after (sep : pystr) (parts : list pystr) : pystr :=
  match parts with
  | [] => []
  | _ :: _ => sep ++ join sep parts
  end.

(** The serialised message of the context, around its two strings. *)
Definition message_text (role content : pystr) : pystr :=
  py "{" ++ json_string (py "content") ++ py ": " ++ json_string content
  ++ py ", " ++ json_string (py "role") ++ py ": " ++ json_string role ++ py "}".

(** The entry of the context list for one message. *)
Definition message_json (msg : message) : json :=
  JObj [(py "role", JStr (role msg)); (py "content", JStr (firstn 100 (content msg)))].

(** ** File reading ([utils/file_handler.py])

    The codecs of [SUPPORTED_ENCODINGS], as [bytes.decode] applies them. *)

Open Scope N_scope.

Inductive encoding := utf_8 | utf_8_sig | latin_1 | cp1252 | ascii.

(** The code points of bytes [0x80] to [0x9F] in Windows-1252; five bytes
    have none. *)
Definition cp1252_high : list (option N) :=
  [Some 8364; None; Some 8218; Some 402; Some 8222; Some 8230; Some 8224;
   Some 8225; Some 710; Some 8240; Some 352; Some 8249; Some 338; None;
   Some 381; None; None; Some 8216; Some 8217; Some 8220; Some 8221;
   Some 8226; Some 8211; Some 8212; Some 732; Some 8482; Some 353; Some 8250;
   Some 339; None; Some 382; Some 376].

Fixpoint decode_cp1252 (data : bytes) : call pystr :=
  match data with
  | [] => Return []
  | b :: rest =>
      let c :=
        if (0x80 <=? b) && (b <? 0xA0)
        then nth (N.to_nat (b - 0x80)) cp1252_high None
        else Some b in
      match c with
      | Some c => bind (decode_cp1252 rest) (fun s => Return (c :: s))
      | None => Raise UnicodeDecodeError
      end
  end.

Definition decode_ascii (data : bytes) : call pystr :=
  if forallb (fun b => b <? 0x80) data then Return data
  else Raise UnicodeDecodeError.

(** [content.decode(encoding)]. *)
Definition bytes_decode (enc : encoding) (data : bytes) : call pystr :=
  match enc with
  | utf_8 => decode data
  | utf_8_sig =>
      if startswith [0xEF; 0xBB; 0xBF] data then decode (skipn 3 data)
      else decode data
  | latin_1 => Return data
  | cp1252 => decode_cp1252 data
  | ascii => decode_ascii data
  end.

Close Scope N_scope.

Definition SUPPORTED_ENCODINGS : list encoding :=
  [utf_8; utf_8_sig; latin_1; cp1252; ascii].

(** The loop of [read_file_content] over the encodings still to try. *)
Fixpoint try_encodings (encodings : list encoding) (content : bytes)
  : call (option pystr) :=
  match encodings with
  | [] => Return None
  | enc :: encodings' =>
      match bytes_decode enc content with
      | Return text => Return (Some text)
      | Raise UnicodeDecodeError => try_encodings encodings' content
      | Raise e => Raise e
      end
  end.

(** [read_file_content]; [content] is what [uploaded_file.read()] returns. *)
Definition read_file_content (content : bytes) : call (option pystr) :=
  try_encodings SUPPORTED_ENCODINGS content.

(** ** Predicates used in the statements below *)

(** A surrogate code point. *)
Definition surrogate (c : N) : Prop := (0xD800 <= c /\ c <= 0xDFFF)%N.

(** A lowercase hexadecimal digit. *)
Definition hex_char (c : N) : Prop :=
  ((48 <= c /\ c <= 57) \/ (97 <= c /\ c <= 102))%N.

(** What [format_prompt] reads of a message: whether its role is [user],
    and its content. *)
Definition turn_view (msg : message) : bool * pystr :=
  (str_eqb (role msg) (py "user"), content msg).

(** [initialize_redis]: [client] is the connection object built from
    [REDIS_CONFIG], [ping] what [client.ping()] does at start-up. *)
Definition initialize_redis (client : redis) (ping : call unit) : option redis :=
  match ping with
  | Return _ => Some client
  | Raise _ => None
  end.

(** ** Sample data *)

Module Sample.

(** Three writes at increasing clock readings (spec section 8: capacity 2,
    keys A, B, C). *)
Definition wA : write :=
  {| w_now := 100; w_key := py "A"; w_expire := 60; w_value := py "alpha" |}.
Definition wB : write :=
  {| w_now := 101; w_key := py "B"; w_expire := 60; w_value := py "beta" |}.
Definition wC : write :=
  {| w_now := 102; w_key := py "C"; w_expire := 60; w_value := py "gamma" |}.

(** Two writes made after the clock was set back. *)
Definition wB_back : write :=
  {| w_now := 50; w_key := py "B"; w_expire := 60; w_value := py "beta" |}.
Definition wC_back : write :=
  {| w_now := 60; w_key := py "C"; w_expire := 60; w_value := py "gamma" |}.

(** A cache of capacity 2 and TTL 3600 holding A and B. *)
Definition full2 : bounded_cache :=
  {| cache := [entry_of wA; entry_of wB]; max_size := 2; ttl := 3600 |}.

(** Sessions with default parameters. *)
Definition session (msgs : list message) : session_state :=
  {| messages := msgs; max_tokens := None; temperature := None;
     top_p := None; rep_penalty := None;
     total_tokens_sent := None; total_tokens_received := None |}.

Definition hello : message := {| role := py "user"; content := py "Hello" |}.

(** Two earlier turns that agree on their first hundred characters only. *)
Definition long_x : message :=
  {| role := py "user"; content := repeat 97%N 100 ++ py "x" |}.
Definition long_y : message :=
  {| role := py "user"; content := repeat 97%N 100 ++ py "y" |}.

(** Two earlier turns: a surrogate pair, and the character it spells
    (U+1F600). *)
Definition smile_pair : message :=
  {| role := py "user"; content := [55357%N; 56832%N] |}.
Definition smile_astral : message :=
  {| role := py "user"; content := [128512%N] |}.

(** An earlier turn of two characters. *)
Definition hi : message := {| role := py "user"; content := py "Hi" |}.

(** Chunks of a streamed response and the lines that carry them. *)
Definition chunk_a : json := JObj [(py "generated_text", JStr (py "a"))].
Definition chunk_b : json := JObj [(py "generated_text", JStr (py "b"))].
Definition chunk_token : json :=
  JObj [(py "token", JObj [(py "text", JStr (py " c"))])].

Definition line_a : bytes := json_dumps false chunk_a.
Definition line_b : bytes := py "data: " ++ json_dumps false chunk_b.
Definition line_token : bytes := json_dumps false chunk_token.
Definition line_garbage : bytes := py "<html>".
Definition line_not_utf8 : bytes := [255%N].

(** [json.loads] on the payloads of the lines above. *)
Definition loads (line : bytes) : call json :=
  if str_eqb line (json_dumps false chunk_a) then Return chunk_a
  else if str_eqb line (json_dumps false chunk_b) then Return chunk_b
  else if str_eqb line (json_dumps false chunk_token) then Return chunk_token
  else if str_eqb line line_not_utf8 then Raise UnicodeDecodeError
  else Raise JSONDecodeError.

(** A client without Redis, capacity 2, TTL 3600. *)
Definition client : api := api_init 3600 2 None.

(** A client without Redis whose store has capacity 0. *)
Definition client_no_room : api := api_init 3600 0 None.

(** A Redis connection that is lost after start-up: every command
    raises. *)
Definition redis_down : redis :=
  {| redis_get := fun _ => Raise RedisError;
     redis_setex := fun _ _ _ => Raise RedisError;
     redis_flushall := Raise RedisError |}.

Definition client_redis_down : api := api_init 3600 2 (Some redis_down).

(** The key of the prompt "Hello" in a session holding only that prompt,
    as [generate_stream] derives it. *)
Definition hello_key : pystr := py "hf_cache:e061f19183f5a033df463902b9d5cda1".

(** The same client after it cached "ab c" for that request at time 101. *)
Definition client_cached : api :=
  {| redis_client := None;
     simple_cache :=
       {| cache := [(hello_key, (py "ab c", 101))]; max_size := 2; ttl := 3600 |};
     cache_ttl := 3600 |}.

End Sample.
(** * Properties *)

(** ** Strings and dictionaries *)

Lemma str_eqb_eq : forall a b, str_eqb a b = true <-> a = b.
Proof.
  induction a as [|x a IH]; destruct b as [|y b]; simpl; split; try congruence; try reflexivity.
  - intros H. apply andb_true_iff in H. destruct H as [Hx Hab].
    apply N.eqb_eq in Hx. apply IH in Hab. congruence.
  - intros H. injection H as -> ->. rewrite N.eqb_refl. simpl. now apply IH.
Qed.

Lemma str_eqb_refl : forall a, str_eqb a a = true.
Proof. intros a. now apply str_eqb_eq. Qed.

Lemma str_eqb_neq : forall a b, str_eqb a b = false <-> a <> b.
Proof.
  intros a b. split.
  - intros H E. apply str_eqb_eq in E. congruence.
  - intros H. destruct (str_eqb a b) eqn:E; [|reflexivity].
    apply str_eqb_eq in E. contradiction.
Qed.

Section PyDictFacts.
Variable V : Type.
Implicit Types (d : pydict V) (v : V).

Lemma dict_get_None_keys : forall key d,
  dict_get key d = None <-> ~ In key (dict_keys d).
Proof.
  induction d as [|[k v] d IH]; simpl.
  - tauto.
  - destruct (str_eqb k key) eqn:E.
    + apply str_eqb_eq in E. subst. split; [discriminate | intros H; exfalso; auto].
    + apply str_eqb_neq in E. rewrite IH. tauto.
Qed.

Lemma dict_get_In : forall key v d,
  dict_get key d = Some v -> In (key, v) d.
Proof.
  induction d as [|[k v'] d IH]; simpl; [discriminate|].
  destruct (str_eqb k key) eqn:E.
  - apply str_eqb_eq in E. intros [= <-]. subst. now left.
  - intros H. right. auto.
Qed.

Lemma dict_get_set_same : forall key v d, dict_get key (dict_set key v d) = Some v.
Proof.
  induction d as [|[k v'] d IH]; simpl.
  - now rewrite str_eqb_refl.
  - destruct (str_eqb k key) eqn:E; simpl; now rewrite E.
Qed.

Lemma dict_get_set_other : forall key key' v d,
  key <> key' -> dict_get key' (dict_set key v d) = dict_get key' d.
Proof.
  intros key key' v d Hne. induction d as [|[k v'] d IH]; simpl.
  - apply str_eqb_neq in Hne. now rewrite Hne.
  - destruct (str_eqb k key) eqn:E; simpl.
    + apply str_eqb_eq in E. subst k. apply str_eqb_neq in Hne. now rewrite Hne.
    + now rewrite IH.
Qed.

Lemma dict_keys_del_subset : forall key k d,
  In k (dict_keys (dict_del key d)) -> In k (dict_keys d).
Proof.
  induction d as [|[k' v] d IH]; simpl; [tauto|].
  destruct (str_eqb k' key); simpl; tauto.
Qed.

Lemma dict_wf_del : forall key d, dict_wf d -> dict_wf (dict_del key d).
Proof.
  unfold dict_wf. induction d as [|[k v] d IH]; simpl; intros H; [assumption|].
  inversion H as [|? ? Hk Hd]; subst.
  destruct (str_eqb k key); simpl; [assumption|].
  constructor; [|auto]. intros Hin. apply Hk. eapply dict_keys_del_subset; eauto.
Qed.

Lemma dict_get_del_same : forall key d,
  dict_wf d -> dict_get key (dict_del key d) = None.
Proof.
  unfold dict_wf. induction d as [|[k v] d IH]; simpl; intros H; [reflexivity|].
  inversion H as [|? ? Hk Hd]; subst.
  destruct (str_eqb k key) eqn:E; simpl.
  - apply str_eqb_eq in E. subst. now apply dict_get_None_keys.
  - rewrite E. auto.
Qed.

Lemma dict_get_del_other : forall key key' d,
  key <> key' -> dict_get key' (dict_del key d) = dict_get key' d.
Proof.
  intros key key' d Hne. induction d as [|[k v] d IH]; simpl; [reflexivity|].
  destruct (str_eqb k key) eqn:E; simpl.
  - apply str_eqb_eq in E. subst k. apply str_eqb_neq in Hne. now rewrite Hne.
  - now rewrite IH.
Qed.

Lemma dict_del_length : forall key d,
  In key (dict_keys d) -> S (length (dict_del key d)) = length d.
Proof.
  induction d as [|[k v] d IH]; simpl; [tauto|].
  destruct (str_eqb k key) eqn:E; simpl; [reflexivity|].
  intros [H|H]; [apply str_eqb_neq in E; congruence | now rewrite IH].
Qed.

Lemma dict_keys_set : forall key v d,
  dict_keys (dict_set key v d) =
  if dict_in key d then dict_keys d else dict_keys d ++ [key].
Proof.
  unfold dict_in. induction d as [|[k v'] d IH]; simpl; [reflexivity|].
  destruct (str_eqb k key) eqn:E; simpl; [reflexivity|].
  rewrite IH. now destruct (dict_get key d).
Qed.

Lemma dict_set_fresh : forall key v d,
  dict_get key d = None -> dict_set key v d = d ++ [(key, v)].
Proof.
  induction d as [|[k v'] d IH]; simpl; [reflexivity|].
  destruct (str_eqb k key); [discriminate|]. intros H. now rewrite IH.
Qed.

Lemma dict_set_length_present : forall key v d,
  dict_in key d = true -> length (dict_set key v d) = length d.
Proof.
  unfold dict_in. induction d as [|[k v'] d IH]; simpl; [discriminate|].
  destruct (str_eqb k key); simpl; [reflexivity|]. intros H. now rewrite IH.
Qed.

Lemma dict_wf_set : forall key v d, dict_wf d -> dict_wf (dict_set key v d).
Proof.
  unfold dict_wf. intros key v d H. rewrite dict_keys_set. unfold dict_in.
  destruct (dict_get key d) eqn:E; [assumption|].
  apply dict_get_None_keys in E.
  apply NoDup_rev in H. rewrite <- (rev_involutive (dict_keys d ++ [key])).
  apply NoDup_rev. rewrite rev_app_distr. simpl. constructor; [|assumption].
  now rewrite <- in_rev.
Qed.
End PyDictFacts.

(** ** The bounded in-memory caches *)

(** [SimpleCache] repeats [MemoryCache] method for method. *)
Lemma SimpleCache_get_eq : SimpleCache.get = MemoryCache.get.
Proof. reflexivity. Qed.

Lemma SimpleCache_setex_eq : SimpleCache.setex = MemoryCache.setex.
Proof. reflexivity. Qed.

Lemma SimpleCache_clear_eq : SimpleCache.clear = MemoryCache.clear.
Proof. reflexivity. Qed.

Lemma min_from_In : forall items best, In (min_from best items) (best :: items).
Proof.
  induction items as [|x items IH]; intros best; simpl; [now left|].
  destruct (IH (if timestamp_of x <? timestamp_of best then x else best)) as [H|H].
  - destruct (timestamp_of x <? timestamp_of best); rewrite <- H; auto.
  - auto.
Qed.

Lemma min_from_le_best : forall items best,
  timestamp_of (min_from best items) <= timestamp_of best.
Proof.
  induction items as [|x items IH]; intros best; simpl; [lia|].
  specialize (IH (if timestamp_of x <? timestamp_of best then x else best)).
  destruct (timestamp_of x <? timestamp_of best) eqn:E; [apply Z.ltb_lt in E|]; lia.
Qed.

Lemma min_from_least : forall items best y,
  In y (best :: items) -> timestamp_of (min_from best items) <= timestamp_of y.
Proof.
  induction items as [|x items IH]; intros best y; simpl.
  - intros [<-|[]]. lia.
  - intros [<-|[<-|H]].
    + pose proof (min_from_le_best items
        (if timestamp_of x <? timestamp_of best then x else best)) as L.
      destruct (timestamp_of x <? timestamp_of best) eqn:E;
        [apply Z.ltb_lt in E|]; lia.
    + pose proof (min_from_le_best items
        (if timestamp_of x <? timestamp_of best then x else best)) as L.
      destruct (timestamp_of x <? timestamp_of best) eqn:E;
        [|apply Z.ltb_ge in E]; lia.
    + apply IH. now right.
Qed.

(** Ties go to the earlier item: an item that nothing later undercuts stays. *)
Lemma min_from_head : forall items best,
  (forall y, In y items -> timestamp_of best <= timestamp_of y) ->
  min_from best items = best.
Proof.
  induction items as [|x items IH]; intros best H; simpl; [reflexivity|].
  assert (E : (timestamp_of x <? timestamp_of best) = false).
  { apply Z.ltb_ge. apply H. now left. }
  rewrite E. apply IH. intros y Hy. apply H. now right.
Qed.

Lemma len_nil : forall A, len (@nil A) = 0.
Proof. reflexivity. Qed.

Lemma len_cons : forall A (x : A) l, len (x :: l) = len l + 1.
Proof. intros. unfold len. simpl length. lia. Qed.

Lemma len_app : forall A (l l' : list A), len (l ++ l') = len l + len l'.
Proof. intros. unfold len. rewrite length_app. lia. Qed.

Lemma len_nonneg : forall A (l : list A), 0 <= len l.
Proof. intros. unfold len. lia. Qed.

Lemma len_dict_del : forall V key (d : pydict V),
  In key (dict_keys d) -> len (dict_del key d) = len d - 1.
Proof. intros V key d H. apply dict_del_length in H. unfold len. lia. Qed.

Lemma len_dict_set : forall V key (v : V) d,
  len (dict_set key v d) = if dict_in key d then len d else len d + 1.
Proof.
  intros V key v d. unfold len.
  rewrite <- (length_map fst (dict_set key v d)).
  fold (dict_keys (dict_set key v d)). rewrite dict_keys_set.
  destruct (dict_in key d); unfold dict_keys.
  - now rewrite length_map.
  - rewrite length_app, length_map. simpl. lia.
Qed.

(** What [setex] does when there is room. *)
Lemma setex_room : forall self now key expire_time value,
  len (cache self) < max_size self ->
  MemoryCache.setex self now key expire_time value =
  Return (with_cache self (dict_set key (value, now) (cache self))).
Proof.
  intros self now key e v H. unfold MemoryCache.setex.
  apply Z.leb_gt in H. rewrite H. reflexivity.
Qed.

(** What [setex] does on a store that is non-empty and at or above capacity. *)
Lemma setex_full : forall self now key expire_time value x items,
  cache self = x :: items ->
  max_size self <= len (cache self) ->
  MemoryCache.setex self now key expire_time value =
  Return (with_cache self
            (dict_set key (value, now)
               (dict_del (fst (min_from x items)) (cache self)))).
Proof.
  intros self now key e v x items Hc H. unfold MemoryCache.setex.
  apply Z.leb_le in H. rewrite H, Hc. reflexivity.
Qed.

(** On an empty store at or above capacity, [min] has nothing to choose
    from and [setex] raises. *)
Lemma setex_empty_full : forall self now key expire_time value,
  cache self = [] ->
  max_size self <= 0 ->
  MemoryCache.setex self now key expire_time value = Raise ValueError.
Proof.
  intros self now key e v Hc H. unfold MemoryCache.setex.
  rewrite Hc. unfold len. simpl length. simpl Z.of_nat.
  apply Z.leb_le in H. rewrite H. reflexivity.
Qed.

Lemma setex_keeps_config : forall self now key expire_time value self',
  MemoryCache.setex self now key expire_time value = Return self' ->
  max_size self' = max_size self /\ ttl self' = ttl self.
Proof.
  intros self now key e v self'. unfold MemoryCache.setex.
  destruct (max_size self <=? len (cache self)); simpl.
  - destruct (py_min (cache self)); simpl; [|discriminate].
    intros [= <-]. auto.
  - intros [= <-]. auto.
Qed.

Lemma setex_stores : forall self now key expire_time value self',
  MemoryCache.setex self now key expire_time value = Return self' ->
  dict_get key (cache self') = Some (value, now).
Proof.
  intros self now key e v self'. unfold MemoryCache.setex.
  destruct (max_size self <=? len (cache self)); simpl.
  - destruct (py_min (cache self)); simpl; [|discriminate].
    intros [= <-]. simpl. apply dict_get_set_same.
  - intros [= <-]. simpl. apply dict_get_set_same.
Qed.

(** The per-call [expire_time] is never read. *)
Lemma setex_ignores_expire_time : forall self now key e1 e2 value,
  MemoryCache.setex self now key e1 value = MemoryCache.setex self now key e2 value.
Proof. reflexivity. Qed.

Lemma get_hit : forall self now key value timestamp,
  dict_get key (cache self) = Some (value, timestamp) ->
  now - timestamp < ttl self ->
  MemoryCache.get self now key = (Some value, self).
Proof.
  intros self now key v ts H Hlt. unfold MemoryCache.get. rewrite H.
  apply Z.ltb_lt in Hlt. now rewrite Hlt.
Qed.

Lemma get_expired : forall self now key value timestamp,
  dict_get key (cache self) = Some (value, timestamp) ->
  ttl self <= now - timestamp ->
  MemoryCache.get self now key =
  (None, with_cache self (dict_del key (cache self))).
Proof.
  intros self now key v ts H Hge. unfold MemoryCache.get. rewrite H.
  apply Z.ltb_ge in Hge. now rewrite Hge.
Qed.

Lemma get_absent : forall self now key,
  dict_get key (cache self) = None ->
  MemoryCache.get self now key = (None, self).
Proof. intros self now key H. unfold MemoryCache.get. now rewrite H. Qed.

(** Invariant of the reachable states: the configuration is the one given
    to [__init__], keys are distinct, and the store is within capacity
    (or empty, for a capacity below one). *)
Lemma reachable_inv : forall C T self,
  reachable C T self ->
  max_size self = C /\ ttl self = T /\ dict_wf (cache self) /\
  (len (cache self) <= C \/ cache self = []).
Proof.
  intros C T self H. induction H as
    [|self now key H IH|self now key e v self' H IH Hs|self H IH].
  - simpl. repeat split; [constructor | now right].
  - destruct IH as (Hm & Ht & Hwf & Hlen). unfold MemoryCache.get.
    destruct (dict_get key (cache self)) as [[value ts]|] eqn:E; simpl;
      [|now auto].
    destruct (now - ts <? ttl self); simpl; [now auto|].
    repeat split; try assumption; [now apply dict_wf_del|].
    destruct Hlen as [Hlen|Hnil]; [|rewrite Hnil in E; discriminate].
    left. rewrite len_dict_del; [lia|].
    apply dict_get_In in E. unfold dict_keys.
    change key with (fst (key, (value, ts))). now apply in_map.
  - destruct IH as (Hm & Ht & Hwf & Hlen).
    destruct (setex_keeps_config _ _ _ _ _ Hs) as [Hm' Ht'].
    repeat split; try congruence.
    + revert Hs. unfold MemoryCache.setex.
      destruct (max_size self <=? len (cache self)); simpl.
      * destruct (py_min (cache self)); simpl; [|discriminate].
        intros [= <-]. simpl. now apply dict_wf_set, dict_wf_del.
      * intros [= <-]. simpl. now apply dict_wf_set.
    + left. destruct (Z_lt_le_dec (len (cache self)) (max_size self)) as [Hr|Hf].
      * rewrite (setex_room _ _ _ _ _ Hr) in Hs. injection Hs as <-. simpl.
        rewrite len_dict_set. destruct (dict_in key (cache self)); lia.
      * destruct (cache self) as [|x items] eqn:Hc.
        { rewrite setex_empty_full in Hs; [discriminate|assumption|].
          rewrite len_nil in Hf. exact Hf. }
        rewrite (setex_full _ _ _ _ _ Hc) in Hs by (rewrite Hc; exact Hf).
        injection Hs as <-. simpl.
        destruct Hlen as [Hlen|Hnil]; [|discriminate].
        rewrite len_dict_set.
        assert (Hin : In (fst (min_from x items)) (dict_keys (x :: items))).
        { unfold dict_keys. apply in_map. apply min_from_In. }
        rewrite Hc. rewrite len_dict_del by exact Hin.
        destruct (dict_in key _); lia.
  - destruct IH as (Hm & Ht & Hwf & Hlen). simpl.
    repeat split; try assumption; [constructor | now right].
Qed.

Lemma dict_keys_entries : forall ws, dict_keys (map entry_of ws) = map w_key ws.
Proof. intros ws. unfold dict_keys. rewrite map_map. reflexivity. Qed.

Lemma dict_get_entries : forall ws w,
  NoDup (map w_key ws) -> In w ws ->
  dict_get (w_key w) (map entry_of ws) = Some (w_value w, w_now w).
Proof.
  induction ws as [|w' ws IH]; intros w Hnd Hin; [destruct Hin|].
  inversion Hnd as [|? ? Hk Hnd']; subst. simpl.
  destruct Hin as [->|Hin].
  - now rewrite str_eqb_refl.
  - destruct (str_eqb (w_key w') (w_key w)) eqn:E; [|now apply IH].
    apply str_eqb_eq in E. exfalso. apply Hk. rewrite E. now apply in_map.
Qed.

Lemma with_cache_id : forall self, with_cache self (cache self) = self.
Proof. now destruct self. Qed.

(** Below capacity, writes of distinct keys pile up in call order. *)
Lemma setex_all_fill : forall ws pre self,
  cache self = map entry_of pre ->
  NoDup (map w_key (pre ++ ws)) ->
  len pre + len ws <= max_size self ->
  setex_all MemoryCache.setex self ws =
  Return (with_cache self (map entry_of (pre ++ ws))).
Proof.
  induction ws as [|w ws IH]; intros pre self Hc Hnd Hlen.
  - simpl. rewrite app_nil_r, <- Hc. now rewrite with_cache_id.
  - simpl setex_all. rewrite len_cons in Hlen. pose proof (len_nonneg ws).
    rewrite setex_room.
    2:{ rewrite Hc. unfold len in *. rewrite length_map. lia. }
    simpl bind.
    assert (Hfresh : dict_get (w_key w) (cache self) = None).
    { rewrite Hc. apply dict_get_None_keys. rewrite dict_keys_entries.
      rewrite map_app in Hnd. simpl in Hnd.
      apply NoDup_remove_2 in Hnd. intros Hin. apply Hnd.
      apply in_or_app. now left. }
    rewrite (dict_set_fresh _ _ _ Hfresh), Hc.
    rewrite (IH (pre ++ [w])).
    + simpl. rewrite <- app_assoc. reflexivity.
    + simpl. rewrite map_app. reflexivity.
    + rewrite <- app_assoc. exact Hnd.
    + rewrite len_app, len_cons, len_nil. simpl max_size. lia.
Qed.

Lemma setex_returns : forall self now key expire_time value,
  1 <= max_size self \/ cache self <> [] ->
  returns (MemoryCache.setex self now key expire_time value).
Proof.
  intros self now key e v H.
  destruct (Z_lt_le_dec (len (cache self)) (max_size self)) as [Hr|Hf].
  - rewrite setex_room by assumption. eexists; reflexivity.
  - destruct (cache self) as [|x items] eqn:Hc.
    + rewrite len_nil in Hf. destruct H as [H|H]; [lia|congruence].
    + erewrite setex_full; eauto; [eexists; reflexivity|]. now rewrite Hc.
Qed.

Lemma setex_all_app : forall s ws ws',
  setex_all MemoryCache.setex s (ws ++ ws') =
  bind (setex_all MemoryCache.setex s ws)
       (fun s' => setex_all MemoryCache.setex s' ws').
Proof.
  intros s ws. revert s. induction ws as [|w ws IH]; intros s ws'; simpl;
    [reflexivity|].
  destruct (MemoryCache.setex s (w_now w) (w_key w) (w_expire w) (w_value w));
    simpl; [apply IH | reflexivity].
Qed.

(** One write more than the capacity, on distinct keys: the first [C]
    writes fill the store in call order, the last one deletes the entry
    [min] selects and appends its own. *)
Lemma setex_all_overflow : forall C T b body last,
  len (b :: body) = C ->
  NoDup (map w_key ((b :: body) ++ [last])) ->
  setex_all MemoryCache.setex (MemoryCache.__init__ T C) ((b :: body) ++ [last]) =
  Return (with_cache (MemoryCache.__init__ T C)
            (dict_set (w_key last) (w_value last, w_now last)
               (dict_del (fst (min_from (entry_of b) (map entry_of body)))
                  (map entry_of (b :: body))))).
Proof.
  intros C T b body last Hlen Hnd.
  rewrite setex_all_app.
  rewrite (setex_all_fill (b :: body) [] (MemoryCache.__init__ T C)).
  2: reflexivity.
  2:{ simpl app. rewrite map_app in Hnd. now apply NoDup_app_remove_r in Hnd. }
  2:{ rewrite len_nil. simpl max_size. lia. }
  simpl app. simpl bind.
  erewrite setex_full;
    [| reflexivity
     | simpl cache; simpl max_size; unfold len in *; simpl length in *;
       rewrite length_map; lia ].
  reflexivity.
Qed.

(** C3 (as amended).  Bounded capacity with oldest-first eviction.  For a
    capacity [C >= 1]: (1) from an empty cache, [C+1] writes of pairwise
    distinct keys all return, whatever the clock readings, and leave exactly
    [C] entries: one of the first [C] keys is absent, one written at a clock
    reading that none of the first [C] writes undercuts, and every other key
    holds its value and the clock reading of its write; (2) when the clock
    readings never go backwards between the writes, the absent key is the
    one written first; (3) on any store at or above capacity, [setex]
    removes exactly one entry, one whose timestamp no stored entry
    undercuts, and then stores the new value with the current clock
    reading.  [SimpleCache] has the same methods. *)
Theorem C3_bounded_capacity_oldest_first : forall C T : Z,
  1 <= C ->
  (forall (first : write) (rest : list write),
     len rest = C ->
     NoDup (map w_key (first :: rest)) ->
     exists final evicted,
       setex_all MemoryCache.setex (MemoryCache.__init__ T C) (first :: rest)
         = Return final /\
       setex_all SimpleCache.setex (SimpleCache.__init__ C T) (first :: rest)
         = Return final /\
       len (cache final) = C /\
       In evicted (removelast (first :: rest)) /\
       (forall w, In w (removelast (first :: rest)) ->
          w_now evicted <= w_now w) /\
       dict_get (w_key evicted) (cache final) = None /\
       forall w, In w (first :: rest) -> w_key w <> w_key evicted ->
         dict_get (w_key w) (cache final) = Some (w_value w, w_now w)) /\
  (forall (first : write) (rest : list write),
     len rest = C ->
     NoDup (map w_key (first :: rest)) ->
     Sorted Z.le (map w_now (first :: rest)) ->
     exists final,
       setex_all MemoryCache.setex (MemoryCache.__init__ T C) (first :: rest)
         = Return final /\
       setex_all SimpleCache.setex (SimpleCache.__init__ C T) (first :: rest)
         = Return final /\
       len (cache final) = C /\
       dict_get (w_key first) (cache final) = None /\
       forall w, In w rest ->
         dict_get (w_key w) (cache final) = Some (w_value w, w_now w)) /\
  (forall self now key expire_time value,
     max_size self = C ->
     C <= len (cache self) ->
     exists oldest,
       In oldest (cache self) /\
       (forall x, In x (cache self) -> timestamp_of oldest <= timestamp_of x) /\
       len (dict_del (fst oldest) (cache self)) = len (cache self) - 1 /\
       MemoryCache.setex self now key expire_time value =
         Return (with_cache self
                   (dict_set key (value, now)
                      (dict_del (fst oldest) (cache self)))) /\
       SimpleCache.setex self now key expire_time value =
         MemoryCache.setex self now key expire_time value).
Proof.
  intros C T HC.
  assert (Hsplit : forall (first : write) rest, len rest = C ->
    exists b body last,
      first :: rest = (b :: body) ++ [last] /\ len (b :: body) = C).
  { intros first rest Hlen.
    destruct (exists_last (l := first :: rest)) as (body & last & Hs);
      [discriminate|].
    assert (Hbody : len body = C).
    { assert (E : len (body ++ [last]) = len (first :: rest)) by now rewrite Hs.
      rewrite len_app, !len_cons, len_nil in E. lia. }
    destruct body as [|b body]; [rewrite len_nil in Hbody; lia|].
    now exists b, body, last. }
  split; [|split].
  - intros first rest Hlen Hnd.
    destruct (Hsplit first rest Hlen) as (b & body & last & Hs & Hbody).
    rewrite Hs in *. rewrite removelast_last.
    pose proof (@setex_all_overflow C T b body last Hbody Hnd) as Hfinal.
    assert (Hkeys : NoDup (map w_key (b :: body)) /\
                    ~ In (w_key last) (map w_key (b :: body))).
    { rewrite map_app in Hnd. split; [now apply NoDup_app_remove_r in Hnd|].
      simpl map in Hnd at 2. apply NoDup_remove_2 in Hnd.
      now rewrite app_nil_r in Hnd. }
    destruct Hkeys as [Hndb Hlast].
    pose proof (min_from_In (map entry_of body) (entry_of b)) as Hin.
    change (entry_of b :: map entry_of body) with (map entry_of (b :: body)) in Hin.
    apply in_map_iff in Hin. destruct Hin as (evicted & Hev & Hin).
    rewrite <- Hev in Hfinal.
    assert (Hwf : dict_wf (map entry_of (b :: body))).
    { unfold dict_wf. now rewrite dict_keys_entries. }
    assert (Hne : w_key last <> w_key evicted).
    { intros E. apply Hlast. rewrite E. now apply in_map. }
    eexists. exists evicted.
    split; [exact Hfinal|]. split; [exact Hfinal|].
    cbn [cache with_cache fst entry_of]. split; [|split; [exact Hin|split; [|split]]].
    + rewrite len_dict_set. unfold dict_in.
      rewrite dict_get_del_other by congruence.
      replace (dict_get (w_key last) (map entry_of (b :: body))) with
        (@None (pystr * Z))
        by (symmetry; apply dict_get_None_keys; now rewrite dict_keys_entries).
      rewrite len_dict_del by (rewrite dict_keys_entries; now apply in_map).
      unfold len in *. rewrite length_map. lia.
    + intros w Hw.
      assert (Hw' : In (entry_of w) (entry_of b :: map entry_of body)).
      { change (entry_of b :: map entry_of body) with (map entry_of (b :: body)).
        now apply in_map. }
      pose proof (@min_from_least (map entry_of body) (entry_of b) (entry_of w) Hw')
        as Hle.
      rewrite <- Hev in Hle. exact Hle.
    + rewrite dict_get_set_other by exact Hne.
      now apply dict_get_del_same.
    + intros w Hw Hwe. apply in_app_or in Hw. destruct Hw as [Hw|[<-|[]]].
      * rewrite dict_get_set_other
          by (intros E; apply Hlast; rewrite E; now apply in_map).
        rewrite dict_get_del_other by congruence.
        now apply dict_get_entries.
      * apply dict_get_set_same.
  - intros first rest Hlen Hnd Hsorted.
    assert (Hfinal :
      setex_all MemoryCache.setex (MemoryCache.__init__ T C) (first :: rest) =
      Return (with_cache (MemoryCache.__init__ T C) (map entry_of rest))).
    { destruct (Hsplit first rest Hlen) as (b & body & last & Hs & Hbody).
      rewrite Hs in *.
      rewrite (@setex_all_overflow C T b body last Hbody Hnd).
      rewrite min_from_head.
      2:{ apply Sorted_StronglySorted in Hsorted; [|intros x y z; apply Z.le_trans].
          simpl in Hsorted. apply StronglySorted_inv in Hsorted.
          destruct Hsorted as [_ Hall]. rewrite Forall_forall in Hall.
          intros y Hy. apply in_map_iff in Hy. destruct Hy as (w & <- & Hw).
          unfold timestamp_of, entry_of. simpl. apply Hall.
          rewrite map_app. apply in_or_app. left. now apply in_map. }
      simpl. rewrite str_eqb_refl.
      rewrite dict_set_fresh.
      2:{ apply dict_get_None_keys. rewrite dict_keys_entries.
          simpl in Hnd. apply NoDup_cons_iff in Hnd. destruct Hnd as [_ Hnd].
          rewrite map_app in Hnd. simpl in Hnd.
          apply NoDup_remove_2 in Hnd. now rewrite app_nil_r in Hnd. }
      injection Hs as <- ->. unfold with_cache. simpl.
      now rewrite map_app. }
    exists (with_cache (MemoryCache.__init__ T C) (map entry_of rest)).
    split; [exact Hfinal|]. split; [exact Hfinal|]. simpl.
    split; [unfold len in *; now rewrite length_map|].
    simpl in Hnd. apply NoDup_cons_iff in Hnd. destruct Hnd as [Hfirst Hnd].
    split.
    + apply dict_get_None_keys. now rewrite dict_keys_entries.
    + intros w Hw. now apply dict_get_entries.
  - intros self now key e v Hm Hfull.
    destruct (cache self) as [|x items] eqn:Hc; [rewrite len_nil in Hfull; lia|].
    exists (min_from x items). split; [apply min_from_In|].
    split; [intros y Hy; now apply min_from_least|].
    split.
    + apply len_dict_del. unfold dict_keys. apply in_map, min_from_In.
    + split; [|reflexivity]. rewrite <- Hc.
      apply setex_full with (x := x) (items := items); [exact Hc|].
      rewrite Hc. lia.
Qed.

Lemma C3_bounded_capacity_witness :
  (exists final,
     setex_all MemoryCache.setex (MemoryCache.__init__ 3600 2)
       [Sample.wA; Sample.wB; Sample.wC] = Return final /\
     setex_all SimpleCache.setex (SimpleCache.__init__ 2 3600)
       [Sample.wA; Sample.wB; Sample.wC] = Return final /\
     len (cache final) = 2 /\
     dict_get (py "A") (cache final) = None /\
     forall w, In w [Sample.wB; Sample.wC] ->
       dict_get (w_key w) (cache final) = Some (w_value w, w_now w)) /\
  (exists final evicted,
     setex_all MemoryCache.setex (MemoryCache.__init__ 3600 2)
       [Sample.wA; Sample.wB_back; Sample.wC_back] = Return final /\
     setex_all SimpleCache.setex (SimpleCache.__init__ 2 3600)
       [Sample.wA; Sample.wB_back; Sample.wC_back] = Return final /\
     len (cache final) = 2 /\
     In evicted (removelast [Sample.wA; Sample.wB_back; Sample.wC_back]) /\
     (forall w, In w (removelast [Sample.wA; Sample.wB_back; Sample.wC_back]) ->
        w_now evicted <= w_now w) /\
     dict_get (w_key evicted) (cache final) = None /\
     forall w, In w [Sample.wA; Sample.wB_back; Sample.wC_back] ->
       w_key w <> w_key evicted ->
       dict_get (w_key w) (cache final) = Some (w_value w, w_now w)).
Proof.
  split.
  - refine (proj1 (proj2 (@C3_bounded_capacity_oldest_first 2 3600 _))
              Sample.wA [Sample.wB; Sample.wC] _ _ _).
    + lia.
    + reflexivity.
    + repeat constructor; simpl; intuition discriminate.
    + repeat constructor; simpl; lia.
  - refine (proj1 (@C3_bounded_capacity_oldest_first 2 3600 _)
              Sample.wA [Sample.wB_back; Sample.wC_back] _ _).
    + lia.
    + reflexivity.
    + repeat constructor; simpl; intuition discriminate.
Defined.

(** C3 as stated fails when the clock is set back between the writes: with
    capacity 2 and writes of A, B, C at the readings 100, 50, 60, the third
    write evicts B, written second, and A, written first, stays. *)
Lemma C3_counterexample :
  NoDup (map w_key [Sample.wA; Sample.wB_back; Sample.wC_back]) /\
  setex_all MemoryCache.setex (MemoryCache.__init__ 3600 2)
    [Sample.wA; Sample.wB_back; Sample.wC_back]
  = Return {| cache := [(py "A", (py "alpha", 100)); (py "C", (py "gamma", 60))];
              max_size := 2; ttl := 3600 |} /\
  setex_all SimpleCache.setex (SimpleCache.__init__ 2 3600)
    [Sample.wA; Sample.wB_back; Sample.wC_back]
  = Return {| cache := [(py "A", (py "alpha", 100)); (py "C", (py "gamma", 60))];
              max_size := 2; ttl := 3600 |} /\
  dict_get (py "A")
    [(py "A", (py "alpha", 100)); (py "C", (py "gamma", 60))]
  = Some (py "alpha", 100) /\
  dict_get (py "B")
    [(py "A", (py "alpha", 100)); (py "C", (py "gamma", 60))]
  = @None (pystr * Z).
Proof.
  split; [repeat constructor; simpl; intuition discriminate|].
  split; [reflexivity|]. split; [reflexivity|]. split; reflexivity.
Qed.

(** C4.  The per-call TTL is ignored and expiry is lazy, by the store's own
    TTL.  After [setex] returns, whatever [expire_time] was passed: the
    resulting store is the same for every other [expire_time], the store's
    [ttl] is unchanged, and [get] of the key at clock reading [now] returns
    the value exactly when [now - t0 < ttl], otherwise it returns nothing
    and deletes the entry.  The same holds for any stored entry and its
    timestamp.  [SimpleCache] has the same methods. *)
Theorem C4_ttl_argument_ignored_lazy_expiry :
  forall self t0 key expire_time value self',
    MemoryCache.setex self t0 key expire_time value = Return self' ->
    (forall e', MemoryCache.setex self t0 key e' value = Return self') /\
    ttl self' = ttl self /\
    (forall now,
       (fst (MemoryCache.get self' now key) = Some value <-> now - t0 < ttl self) /\
       (now - t0 < ttl self ->
          MemoryCache.get self' now key = (Some value, self')) /\
       (ttl self <= now - t0 ->
          MemoryCache.get self' now key =
            (None, with_cache self' (dict_del key (cache self'))))) /\
    (forall c now k v timestamp,
       dict_get k (cache c) = Some (v, timestamp) ->
       (fst (MemoryCache.get c now k) = Some v <-> now - timestamp < ttl c) /\
       (ttl c <= now - timestamp ->
          MemoryCache.get c now k =
            (None, with_cache c (dict_del k (cache c))))) /\
    SimpleCache.setex = MemoryCache.setex /\ SimpleCache.get = MemoryCache.get.
Proof.
  intros self t0 key e v self' Hs.
  assert (Hgen : forall c now k v' ts,
    dict_get k (cache c) = Some (v', ts) ->
    (fst (MemoryCache.get c now k) = Some v' <-> now - ts < ttl c) /\
    (ttl c <= now - ts ->
       MemoryCache.get c now k = (None, with_cache c (dict_del k (cache c))))).
  { intros c now k v' ts Hk. split.
    - destruct (Z_lt_le_dec (now - ts) (ttl c)) as [Hlt|Hge].
      + rewrite (get_hit _ _ _ Hk Hlt). simpl. tauto.
      + rewrite (get_expired _ _ _ Hk Hge). simpl. split; [discriminate|lia].
    - intros Hge. apply (get_expired _ _ _ Hk Hge). }
  destruct (setex_keeps_config _ _ _ _ _ Hs) as [_ Ht].
  pose proof (setex_stores _ _ _ _ _ Hs) as Hk.
  split; [intros e'; exact Hs|].
  split; [exact Ht|].
  split; [|split; [exact Hgen | split; reflexivity]].
  intros now. rewrite <- Ht.
  destruct (Hgen self' now key v t0 Hk) as [Hiff Hexp].
  split; [exact Hiff|]. split; [|exact Hexp].
  intros Hlt. now apply get_hit with (timestamp := t0).
Qed.

Lemma C4_ttl_argument_witness :
  (forall e', MemoryCache.setex Sample.full2 200 (py "B") e' (py "new") =
     MemoryCache.setex Sample.full2 200 (py "B") 5 (py "new")) /\
  fst (MemoryCache.get
         {| cache := [entry_of Sample.wB]; max_size := 2; ttl := 3600 |}
         3700 (py "B")) = Some (py "beta") /\
  MemoryCache.get
    {| cache := [entry_of Sample.wB]; max_size := 2; ttl := 3600 |}
    3701 (py "B") = (None, {| cache := []; max_size := 2; ttl := 3600 |}).
Proof.
  destruct (@C4_ttl_argument_ignored_lazy_expiry
              Sample.full2 200 (py "B") 5 (py "new") _ eq_refl)
    as (Hany & _ & _ & Hgen & _).
  split; [exact Hany|].
  destruct (Hgen {| cache := [entry_of Sample.wB]; max_size := 2; ttl := 3600 |}
              3700 (py "B") (py "beta") 101 eq_refl) as [Hhit _].
  destruct (Hgen {| cache := [entry_of Sample.wB]; max_size := 2; ttl := 3600 |}
              3701 (py "B") (py "beta") 101 eq_refl) as [_ Hexp].
  split; [apply Hhit; simpl; lia | apply Hexp; simpl; lia].
Defined.

(** C9 (the code departs from the claim).  A bounded cache built with
    capacity zero is empty and at capacity, so [setex] asks [min] for the
    oldest of no entries: the [ValueError] reaches the caller, for every
    key, value, TTL and clock reading.  Both classes behave so. *)
Theorem C9_setex_raises_at_zero_capacity :
  forall T now key expire_time value,
    MemoryCache.setex (MemoryCache.__init__ T 0) now key expire_time value
      = Raise ValueError /\
    SimpleCache.setex (SimpleCache.__init__ 0 T) now key expire_time value
      = Raise ValueError.
Proof. intros. split; reflexivity. Qed.

(** C10.  Overwriting a key in a full cache still evicts.  On a reachable
    store at or above capacity, [setex] of a key that is present first
    deletes the entry [min] selects, one whose timestamp no stored entry
    undercuts, then writes the key.  When the deleted entry belongs to
    another key, that key is gone afterwards and the store holds one entry
    fewer than its capacity.  [SimpleCache] has the same methods. *)
Theorem C10_overwrite_in_full_cache_evicts :
  forall C T self now key expire_time value,
    reachable C T self ->
    max_size self <= len (cache self) ->
    dict_in key (cache self) = true ->
    exists oldest,
      py_min (cache self) = Return oldest /\
      In oldest (cache self) /\
      (forall x, In x (cache self) -> timestamp_of oldest <= timestamp_of x) /\
      MemoryCache.setex self now key expire_time value =
        Return (with_cache self
                  (dict_set key (value, now)
                     (dict_del (fst oldest) (cache self)))) /\
      SimpleCache.setex self now key expire_time value =
        MemoryCache.setex self now key expire_time value /\
      (fst oldest <> key ->
         forall self',
           MemoryCache.setex self now key expire_time value = Return self' ->
           len (cache self') = C - 1 /\
           dict_get (fst oldest) (cache self') = None /\
           dict_get key (cache self') = Some (value, now)).
Proof.
  intros C T self now key e v Hreach Hfull Hin.
  destruct (reachable_inv Hreach) as (Hm & Ht & Hwf & Hlen).
  destruct (cache self) as [|x items] eqn:Hc; [discriminate|].
  destruct Hlen as [Hlen|]; [|discriminate].
  exists (min_from x items).
  assert (Hold : In (min_from x items) (x :: items)) by apply min_from_In.
  split; [reflexivity|]. split; [exact Hold|].
  split; [intros y Hy; now apply min_from_least|].
  assert (Hs : MemoryCache.setex self now key e v =
    Return (with_cache self
              (dict_set key (v, now)
                 (dict_del (fst (min_from x items)) (x :: items))))).
  { rewrite <- Hc. apply setex_full with (x := x) (items := items); [exact Hc|].
    now rewrite Hc. }
  split; [exact Hs|]. split; [reflexivity|].
  intros Hne self' Hs'. rewrite Hs in Hs'.
  remember (x :: items) as d eqn:Hd. injection Hs' as <-.
  cbn [cache with_cache].
  split; [|split].
  - rewrite len_dict_set.
    assert (Hstill : dict_in key (dict_del (fst (min_from x items)) d) = true).
    { unfold dict_in in *. now rewrite dict_get_del_other. }
    rewrite Hstill. rewrite len_dict_del by (unfold dict_keys; now apply in_map).
    lia.
  - rewrite dict_get_set_other by congruence.
    now apply dict_get_del_same.
  - apply dict_get_set_same.
Qed.

Lemma C10_overwrite_witness :
  exists self',
    MemoryCache.setex Sample.full2 200 (py "B") 60 (py "new") = Return self' /\
    len (cache self') = 1 /\
    dict_get (py "A") (cache self') = None /\
    dict_get (py "B") (cache self') = Some (py "new", 200).
Proof.
  assert (Hreach : reachable 2 3600 Sample.full2).
  { apply reach_setex with
      (self := {| cache := [entry_of Sample.wA]; max_size := 2; ttl := 3600 |})
      (now := 101) (key := py "B") (expire_time := 60) (value := py "beta");
      [|reflexivity].
    apply reach_setex with
      (self := MemoryCache.__init__ 3600 2)
      (now := 100) (key := py "A") (expire_time := 60) (value := py "alpha");
      [constructor|reflexivity]. }
  destruct (@C10_overwrite_in_full_cache_evicts 2 3600 Sample.full2 200
              (py "B") 60 (py "new") Hreach ltac:(vm_compute; discriminate) eq_refl)
    as (oldest & Hmin & _ & _ & Hs & _ & Hdiff).
  injection Hmin as <-.
  eexists. split; [exact Hs|].
  apply (Hdiff ltac:(vm_compute; discriminate) _ Hs).
Defined.

(** ** Key derivation *)

(** The window the code slices is the window of the specification. *)
Lemma last_messages_window : forall msgs,
  last_messages msgs = skipn (length (removelast msgs) - 9) (removelast msgs).
Proof.
  intros msgs. unfold last_messages.
  rewrite removelast_firstn_len.
  destruct msgs as [|m [|m' msgs]]; try reflexivity.
  replace (1 <? length (m :: m' :: msgs))%nat with true
    by (symmetry; apply Nat.ltb_lt; simpl; lia).
  rewrite length_firstn.
  replace (Nat.min (Nat.pred (length (m :: m' :: msgs))) (length (m :: m' :: msgs)))
    with (Nat.pred (length (m :: m' :: msgs))) by lia.
  replace (length (m :: m' :: msgs) - 1)%nat
    with (Nat.pred (length (m :: m' :: msgs))) by lia.
  f_equal; simpl length; lia.
Qed.

(** The context string is a function of the trailing window, and of
    whether there is any message at all. *)
Lemma cache_context_window : forall st,
  cache_context st =
  match messages st with
  | [] => []
  | _ :: _ =>
      json_dumps true
        (JArr (map (fun rc => JObj [(py "role", JStr (fst rc));
                                    (py "content", JStr (snd rc))])
                   (trailing_window (messages st))))
  end.
Proof.
  intros st. unfold cache_context, trailing_window.
  destruct (messages st) as [|m msgs] eqn:E; [reflexivity|].
  rewrite last_messages_window, map_map. reflexivity.
Qed.

(** C1 (as amended).  The key depends only on the prompt, on whether the
    history is empty, on the trailing window (the last nine turns before the
    live prompt, each as role and first hundred characters of content) and
    on the parameters: two sessions whose histories are both empty or both
    non-empty and have equal trailing windows get the same result from
    [_get_cache_key], for every prompt and parameter set. *)
Theorem C1_key_depends_on_window : forall st1 st2 prompt params,
  (messages st1 = [] <-> messages st2 = []) ->
  trailing_window (messages st1) = trailing_window (messages st2) ->
  _get_cache_key st1 prompt params = _get_cache_key st2 prompt params.
Proof.
  intros st1 st2 prompt params Hempty Hwin.
  unfold _get_cache_key, key_content.
  rewrite !cache_context_window, Hwin.
  destruct (messages st1) as [|m1 l1], (messages st2) as [|m2 l2];
    try reflexivity.
  - destruct Hempty as [H _]. specialize (H eq_refl). discriminate.
  - destruct Hempty as [_ H]. specialize (H eq_refl). discriminate.
Qed.

Lemma C1_key_depends_on_window_witness :
  _get_cache_key (Sample.session [Sample.long_x; Sample.hello]) (py "Hello")
    (generate_stream_params (Sample.session []))
  = _get_cache_key (Sample.session [Sample.long_y; Sample.hello]) (py "Hello")
      (generate_stream_params (Sample.session [])).
Proof.
  apply C1_key_depends_on_window.
  - simpl. split; discriminate.
  - reflexivity.
Defined.

(** C1 as stated fails: a session with no message and a session holding
    only the live prompt both have the empty trailing window, yet the first
    hashes an empty context and the second the text of an empty array. *)
Lemma C1_counterexample :
  trailing_window (messages (Sample.session [])) =
  trailing_window (messages (Sample.session [Sample.hello])) /\
  _get_cache_key (Sample.session []) (py "Hello")
    (generate_params (Sample.session []))
  = Return (py "hf_cache:f35ed5662031c6e03cb6e54f1cb8d159") /\
  _get_cache_key (Sample.session [Sample.hello]) (py "Hello")
    (generate_params (Sample.session []))
  = Return (py "hf_cache:920e62fa87bdecff0522ffe3c4028fa0") /\
  _get_cache_key (Sample.session []) (py "Hello")
    (generate_params (Sample.session []))
  <> _get_cache_key (Sample.session [Sample.hello]) (py "Hello")
       (generate_params (Sample.session [])).
Proof.
  split; [reflexivity|]. split; [vm_compute; reflexivity|].
  split; [vm_compute; reflexivity|]. vm_compute. discriminate.
Qed.

(** The parameters [generate_stream] hashes serialise sixteen characters
    longer than those [generate] hashes: the entry for [stream]. *)
Lemma stream_params_longer : forall st,
  length (json_dumps true (JObj (generate_stream_params st))) =
  (length (json_dumps true (JObj (generate_params st))) + 16)%nat.
Proof.
  intros st. unfold generate_stream_params, generate_params, _get_params.
  generalize (get_default (max_tokens st) (JInt 1024))
             (get_default (temperature st) (JFloat (py "0.7")))
             (get_default (top_p st) (JFloat (py "0.9")))
             (get_default (rep_penalty st) (JFloat (py "1.1"))).
  intros v1 v2 v3 v4. cbn.
  repeat (rewrite length_app; cbn [length]). lia.
Qed.

Lemma key_content_params_inj : forall st prompt params params',
  key_content st prompt params = key_content st prompt params' ->
  json_dumps true (JObj params) = json_dumps true (JObj params').
Proof.
  intros st prompt params params' H. unfold key_content in H.
  do 5 (apply app_inv_head in H). exact H.
Qed.

(** C8 (as amended).  [generate] and [generate_stream] derive the key with
    the same function from the same prompt and history, but
    [generate_stream] passes the parameters with [stream] set: for every
    session and prompt the two strings that are hashed differ, so the two
    paths look a response up under the same key only if MD5 collides on
    them.  Within one path the key is a function of the request. *)
Theorem C8_stream_flag_separates_keys : forall st prompt,
  generate_stream_params st = dict_set (py "stream") (JBool true) (generate_params st) /\
  dict_get (py "stream") (generate_params st) = None /\
  key_content st prompt (generate_params st)
    <> key_content st prompt (generate_stream_params st).
Proof.
  intros st prompt. split; [reflexivity|]. split; [reflexivity|].
  intros H. apply key_content_params_inj in H.
  pose proof (stream_params_longer st) as L. rewrite <- H in L. lia.
Qed.

(** C8 as stated fails: for the prompt "Hello" in a session holding only
    that prompt, with default parameters, the two entry points derive
    different keys. *)
Lemma C8_counterexample :
  _get_cache_key (Sample.session [Sample.hello]) (py "Hello")
    (generate_params (Sample.session [Sample.hello]))
  = Return (py "hf_cache:920e62fa87bdecff0522ffe3c4028fa0") /\
  _get_cache_key (Sample.session [Sample.hello]) (py "Hello")
    (generate_stream_params (Sample.session [Sample.hello]))
  = Return (py "hf_cache:e061f19183f5a033df463902b9d5cda1") /\
  _get_cache_key (Sample.session [Sample.hello]) (py "Hello")
    (generate_params (Sample.session [Sample.hello]))
  <> _get_cache_key (Sample.session [Sample.hello]) (py "Hello")
       (generate_stream_params (Sample.session [Sample.hello])).
Proof.
  split; [vm_compute; reflexivity|]. split; [vm_compute; reflexivity|].
  vm_compute. discriminate.
Qed.

(** ** Streaming generation *)

Section GenerationFacts.

Variable json_loads : bytes -> call json.

Lemma on_chunk_concat : forall chunk frags text n,
  on_chunk chunk = Return (Text frags text n) -> concat frags = text.
Proof.
  intros chunk frags text n. unfold on_chunk.
  assert (Hchars : forall s : pystr, concat (map (fun char => [char]) s) = s).
  { induction s as [|c s IH]; simpl; [reflexivity | now rewrite IH]. }
  set (chunk' := match chunk with JArr (first :: _) => first | _ => chunk end).
  destruct chunk' as [| | | | |items|d]; try discriminate.
  destruct (dict_get (py "generated_text") d) as [[| | | |s| |]|];
    try discriminate.
  - intros [= <- <- _]. apply Hchars.
  - destruct (dict_get (py "token") d) as [[| | | | | |token]|]; try discriminate.
    destruct (dict_get (py "text") token) as [[| | | |s| |]|]; try discriminate.
    + intros [= <- <- _]. simpl. apply app_nil_r.
    + intros [= <- <- _]. reflexivity.
Qed.

Lemma process_line_concat : forall line frags text n,
  process_line json_loads line = Text frags text n -> concat frags = text.
Proof.
  intros line frags text n. unfold process_line.
  destruct line as [|b line]; [discriminate|].
  destruct (str_eqb (b :: line) (py "data: [DONE]")); [discriminate|].
  destruct (json_loads _) as [chunk|e]; simpl.
  - destruct (on_chunk chunk) as [effect|e] eqn:E.
    + intros ->. eapply on_chunk_concat; eauto.
    + destruct e; discriminate.
  - destruct e; discriminate.
Qed.

(** The fragments yielded so far always spell the accumulated text. *)
Lemma read_lines_concat : forall lines acc acc' stop,
  concat (yielded acc) = full_response acc ->
  read_lines json_loads lines acc = (acc', stop) ->
  concat (yielded acc') = full_response acc'.
Proof.
  induction lines as [|line lines IH]; intros acc acc' stop Hacc; simpl.
  - intros [= <- _]. exact Hacc.
  - destruct (process_line json_loads line) as [|frags text n|e] eqn:E.
    + apply IH. exact Hacc.
    + apply IH. simpl. rewrite concat_app, Hacc.
      now rewrite (process_line_concat _ E).
    + intros [= <- _]. exact Hacc.
Qed.

Lemma read_lines_app : forall lines lines' acc,
  read_lines json_loads (lines ++ lines') acc =
  match read_lines json_loads lines acc with
  | (acc', None) => read_lines json_loads lines' acc'
  | (acc', Some e) => (acc', Some e)
  end.
Proof.
  induction lines as [|line lines IH]; intros lines' acc; simpl; [reflexivity|].
  destruct (process_line json_loads line); [apply IH | apply IH | reflexivity].
Qed.

(** A line whose iteration ends in [continue] or in a caught exception
    leaves the loop exactly where it was. *)
Lemma read_lines_skip : forall lines line lines' acc,
  process_line json_loads line = Skipped ->
  read_lines json_loads (lines ++ line :: lines') acc =
  read_lines json_loads (lines ++ lines') acc.
Proof.
  intros lines line lines' acc H. rewrite !read_lines_app.
  destruct (read_lines json_loads lines acc) as [acc' [e|]]; [reflexivity|].
  simpl. now rewrite H.
Qed.

Lemma process_line_blank : process_line json_loads [] = Skipped.
Proof. reflexivity. Qed.

Lemma process_line_done : process_line json_loads (py "data: [DONE]") = Skipped.
Proof. reflexivity. Qed.

Lemma process_line_not_json : forall line,
  json_loads (payload line) = Raise JSONDecodeError ->
  process_line json_loads line = Skipped.
Proof.
  intros line H. unfold process_line. destruct line as [|b line]; [reflexivity|].
  destruct (str_eqb (b :: line) (py "data: [DONE]")); [reflexivity|].
  now rewrite H.
Qed.

(** A parsed chunk that is neither an object, nor a non-empty array
    starting with one, is skipped; so is an object with neither key. *)
Lemma process_line_other_shape : forall line chunk,
  json_loads (payload line) = Return chunk ->
  on_chunk chunk = Return Skipped \/ on_chunk chunk = Raise TypeError ->
  process_line json_loads line = Skipped.
Proof.
  intros line chunk H Hc. unfold process_line.
  destruct line as [|b line]; [reflexivity|].
  destruct (str_eqb (b :: line) (py "data: [DONE]")); [reflexivity|].
  rewrite H. simpl.
  destruct Hc as [-> | ->]; reflexivity.
Qed.

(** A valid [generated_text] chunk is yielded character by character. *)
Lemma process_line_generated_text : forall line d text,
  line <> [] -> line <> py "data: [DONE]" ->
  json_loads (payload line) = Return (JObj d) ->
  dict_get (py "generated_text") d = Some (JStr text) ->
  process_line json_loads line =
  Text (map (fun char => [char]) text) text (word_count text).
Proof.
  intros line d text Hne Hdone H Hd. unfold process_line.
  destruct line as [|b line]; [congruence|].
  apply str_eqb_neq in Hdone. rewrite Hdone.
  rewrite H. cbn [bind]. unfold on_chunk. now rewrite Hd.
Qed.

End GenerationFacts.

Lemma concat_chars : forall s : pystr, concat (map (fun char => [char]) s) = s.
Proof. induction s as [|c s IH]; simpl; [reflexivity | now rewrite IH]. Qed.

(** The run on a cache hit. *)
Lemma generate_stream_hit :
  forall json_loads self st t_get t_set prompt http cache_key v self',
    _get_cache_key st prompt (generate_stream_params st) = Return cache_key ->
    get_from_cache self t_get cache_key = (Some v, self') ->
    v <> [] ->
    generate_stream json_loads self st t_get t_set prompt http =
    {| fragments := map (fun char => [char]) v; outcome := Return tt;
       saved := None; api_after := self';
       session_after :=
         add_tokens st (word_count (format_prompt st prompt)) (word_count v) |}.
Proof.
  intros json_loads self st t_get t_set prompt http cache_key v self' Hk Hget Hv.
  unfold generate_stream, generate_stream_body. rewrite Hk, Hget.
  destruct v as [|c s]; [congruence|]. reflexivity.
Qed.

(** The run on a cache miss, by what the HTTP exchange does. *)
Lemma generate_stream_miss :
  forall json_loads self st t_get t_set prompt http cache_key cached self',
    _get_cache_key st prompt (generate_stream_params st) = Return cache_key ->
    get_from_cache self t_get cache_key = (cached, self') ->
    falsy cached ->
    generate_stream json_loads self st t_get t_set prompt http =
    match http with
    | RequestFailed e =>
        {| fragments := [py "Error: " ++ e]; outcome := Return tt;
           saved := None; api_after := self'; session_after := st |}
    | Streaming lines broken =>
        match read_lines json_loads lines start with
        | (acc, Some (RequestException e)) =>
            {| fragments := yielded acc ++ [py "Error: " ++ e];
               outcome := Return tt; saved := None; api_after := self';
               session_after := st |}
        | (acc, Some e) =>
            {| fragments := yielded acc; outcome := Raise e; saved := None;
               api_after := self'; session_after := st |}
        | (acc, None) =>
            match broken with
            | Some e =>
                {| fragments := yielded acc ++ [py "Error: " ++ e];
                   outcome := Return tt; saved := None; api_after := self';
                   session_after := st |}
            | None =>
                match full_response acc with
                | [] =>
                    {| fragments := yielded acc; outcome := Return tt;
                       saved := None; api_after := self'; session_after := st |}
                | _ :: _ =>
                    {| fragments := yielded acc; outcome := Return tt;
                       saved := Some (cache_key, full_response acc);
                       api_after :=
                         save_to_cache self' t_set cache_key (full_response acc);
                       session_after :=
                         add_tokens st (word_count (format_prompt st prompt))
                           (tokens_received acc) |}
                end
            end
        end
    end.
Proof.
  intros json_loads self st t_get t_set prompt http cache_key cached self' Hk Hget Hf.
  unfold generate_stream, generate_stream_body. rewrite Hk, Hget.
  assert (Hc : match cached with Some (_ :: _) => False | _ => True end).
  { destruct Hf as [-> | ->]; exact I. }
  destruct cached as [[|c s]|]; try contradiction;
    (destruct http as [e|lines broken]; [reflexivity|];
     destruct (read_lines json_loads lines start) as [acc [e|]];
     [destruct e; reflexivity|];
     destruct broken as [e|]; [reflexivity|];
     destruct (full_response acc); reflexivity).
Qed.

(** A write to the in-memory store with room for at least one entry
    lands under the key, stamped with the clock reading of the write. *)
Lemma save_to_cache_simple : forall self now key response,
  redis_client self = None ->
  1 <= max_size (simple_cache self) ->
  dict_get key (cache (simple_cache (save_to_cache self now key response)))
    = Some (response, now).
Proof.
  intros self now key response Hr Hm. unfold save_to_cache. rewrite Hr.
  rewrite SimpleCache_setex_eq.
  destruct (setex_returns (simple_cache self) now key (cache_ttl self) response
              (or_introl Hm)) as [c Hc].
  rewrite Hc. simpl. eapply setex_stores; eauto.
Qed.

Lemma get_from_cache_keeps_config : forall self now key,
  redis_client (snd (get_from_cache self now key)) = redis_client self /\
  max_size (simple_cache (snd (get_from_cache self now key)))
    = max_size (simple_cache self).
Proof.
  intros self now key. unfold get_from_cache.
  destruct (redis_client self) as [client|] eqn:Hr.
  - destruct (redis_get client key); simpl; auto.
  - unfold SimpleCache.get.
    destruct (dict_get key (cache (simple_cache self))) as [[v ts]|]; simpl; auto.
    destruct (now - ts <? ttl (simple_cache self)); simpl; auto.
Qed.



(** On a store that holds nothing and has no room, the write raises inside
    [save_to_cache], which swallows the error: the client is as it was. *)
Lemma save_to_cache_no_room : forall self now key response,
  redis_client self = None ->
  max_size (simple_cache self) < 1 ->
  cache (simple_cache self) = [] ->
  save_to_cache self now key response = self.
Proof.
  intros self now key response Hr Hm Hc. unfold save_to_cache. rewrite Hr.
  rewrite SimpleCache_setex_eq, setex_empty_full; [reflexivity | exact Hc | lia].
Qed.

Lemma get_from_cache_empty : forall self now key,
  redis_client self = None ->
  cache (simple_cache self) = [] ->
  get_from_cache self now key = (None, self).
Proof.
  intros [r c t] now key Hr Hc. simpl in Hr, Hc. subst r.
  unfold get_from_cache, SimpleCache.get. simpl. rewrite Hc. reflexivity.
Qed.

(** C5 (as amended).  When the cache is written.  Let the key derivation
    return [cache_key].  (1) [save_to_cache] is called exactly when the
    lookup returned nothing usable, the response stream was read to its end
    with no exception, and the accumulated text is non-empty.  (2) That
    call is made with [cache_key] and the text the fragments spell, the
    generator ends normally whatever the write does, and the client is left
    as [save_to_cache] leaves it: with the in-memory store and a capacity
    of at least one the store then holds the text under [cache_key],
    stamped with the clock reading of the write; with the in-memory store
    empty and a capacity below one the write raises, the error is
    swallowed and the client is as it was before the call.  (3) In every
    other run the client is as the lookup left it.  (4) When the request
    fails before any line is read, the only fragment is the error text;
    (5) when the stream breaks after its lines were read, the fragments of
    those lines are followed by exactly one error text; in both cases the
    generator ends normally and neither the cache nor the token counters
    are written.  (6) When the stream ends with an empty accumulated text,
    neither the cache nor the token counters are written. *)
Theorem C5_cache_written_iff_stream_completes :
  forall json_loads self st t_get t_set prompt http cache_key,
    _get_cache_key st prompt (generate_stream_params st) = Return cache_key ->
    let r := generate_stream json_loads self st t_get t_set prompt http in
    let looked := get_from_cache self t_get cache_key in
    (saved r <> None <->
       falsy (fst looked) /\
       exists lines acc,
         http = Streaming lines None /\
         read_lines json_loads lines start = (acc, None) /\
         full_response acc <> []) /\
    (forall k text,
       saved r = Some (k, text) ->
       k = cache_key /\ text = concat (fragments r) /\ text <> [] /\
       outcome r = Return tt /\
       api_after r = save_to_cache (snd looked) t_set cache_key text /\
       (redis_client self = None -> 1 <= max_size (simple_cache self) ->
          dict_get cache_key (cache (simple_cache (api_after r)))
            = Some (text, t_set)) /\
       (redis_client self = None -> max_size (simple_cache self) < 1 ->
          cache (simple_cache self) = [] ->
          api_after r = self)) /\
    (saved r = None -> api_after r = snd looked) /\
    (forall e,
       falsy (fst looked) -> http = RequestFailed e ->
       fragments r = [py "Error: " ++ e] /\ outcome r = Return tt /\
       saved r = None /\ api_after r = snd looked /\ session_after r = st) /\
    (forall lines e acc,
       falsy (fst looked) -> http = Streaming lines (Some e) ->
       read_lines json_loads lines start = (acc, None) ->
       fragments r = yielded acc ++ [py "Error: " ++ e] /\ outcome r = Return tt /\
       saved r = None /\ api_after r = snd looked /\ session_after r = st) /\
    (forall lines acc,
       falsy (fst looked) -> http = Streaming lines None ->
       read_lines json_loads lines start = (acc, None) ->
       full_response acc = [] ->
       fragments r = yielded acc /\ outcome r = Return tt /\
       saved r = None /\ api_after r = snd looked /\ session_after r = st).
Proof.
  intros json_loads self st t_get t_set prompt http cache_key Hk r looked.
  destruct (get_from_cache self t_get cache_key) as [cached self'] eqn:Hget.
  subst looked. cbn [fst snd].
  assert (Hmiss : falsy cached -> r = _) by
    (intros Hf; exact (@generate_stream_miss json_loads self st t_get t_set prompt
                         http cache_key cached self' Hk Hget Hf)).
  assert (Hhit : ~ falsy cached -> saved r = None /\ api_after r = self').
  { intros Hn. destruct cached as [[|c s]|];
      [exfalso; apply Hn; now right | | exfalso; apply Hn; now left].
    subst r.
    now rewrite (@generate_stream_hit json_loads self st t_get t_set prompt
                   http cache_key (c :: s) self' Hk Hget). }
  assert (Hdec : falsy cached \/ ~ falsy cached).
  { destruct cached as [[|c s]|]; [left; now right | right | left; now left].
    intros [H|H]; discriminate. }
  split; [|split; [|split; [|split; [|split]]]].
  - split.
    + intros Hsaved.
      destruct Hdec as [Hf|Hn]; [|now destruct (Hhit Hn) as [Hs _]].
      split; [exact Hf|]. rewrite (Hmiss Hf) in Hsaved.
      destruct http as [e|lines broken]; [now contradiction Hsaved|].
      destruct (read_lines json_loads lines start) as [acc [e|]] eqn:Hread.
      { destruct e; now contradiction Hsaved. }
      destruct broken as [e|]; [now contradiction Hsaved|].
      exists lines, acc. split; [reflexivity|]. split; [exact Hread|].
      destruct (full_response acc); [now contradiction Hsaved | discriminate].
    + intros (Hf & lines & acc & -> & Hread & Hfull). rewrite (Hmiss Hf), Hread.
      destruct (full_response acc); [congruence | discriminate].
  - intros k text Hsaved.
    destruct Hdec as [Hf|Hn];
      [|destruct (Hhit Hn) as [Hs _]; rewrite Hs in Hsaved; discriminate].
    rewrite (Hmiss Hf) in Hsaved |- *.
    destruct http as [e|lines broken]; [discriminate|].
    destruct (read_lines json_loads lines start) as [acc [e|]] eqn:Hread.
    { destruct e; discriminate. }
    destruct broken as [e|]; [discriminate|].
    assert (Hacc : concat (yielded acc) = full_response acc).
    { eapply read_lines_concat; [|exact Hread]. reflexivity. }
    destruct (full_response acc) as [|c s] eqn:Hfull; [discriminate|].
    cbn [saved] in Hsaved. injection Hsaved as <- <-.
    cbn [fragments outcome api_after].
    pose proof (get_from_cache_keeps_config self t_get cache_key) as [Hr' Hm'].
    rewrite Hget in Hr', Hm'. cbn [snd] in Hr', Hm'.
    split; [reflexivity|]. split; [now rewrite Hacc|]. split; [discriminate|].
    split; [reflexivity|]. split; [reflexivity|]. split.
    + intros Hr Hm. apply save_to_cache_simple; [congruence | lia].
    + intros Hr Hm Hc.
      rewrite (@get_from_cache_empty self t_get cache_key Hr Hc) in Hget.
      injection Hget as _ <-.
      now apply save_to_cache_no_room.
  - intros Hsaved.
    destruct Hdec as [Hf|Hn]; [|now destruct (Hhit Hn) as [_ Ha]].
    rewrite (Hmiss Hf) in Hsaved |- *.
    destruct http as [e|lines broken]; [reflexivity|].
    destruct (read_lines json_loads lines start) as [acc [e|]] eqn:Hread.
    { destruct e; reflexivity. }
    destruct broken as [e|]; [reflexivity|].
    destruct (full_response acc); [reflexivity | discriminate].
  - intros e Hf ->. rewrite (Hmiss Hf). repeat split.
  - intros lines e acc Hf -> Hread. rewrite (Hmiss Hf), Hread. repeat split.
  - intros lines acc Hf -> Hread Hfull. rewrite (Hmiss Hf), Hread, Hfull.
    repeat split.
Qed.

Lemma C5_cache_written_witness :
  let st := Sample.session [Sample.hello] in
  let failed :=
    generate_stream Sample.loads Sample.client st 100 101 (py "Hello")
      (RequestFailed (py "503 Server Error")) in
  let broken :=
    generate_stream Sample.loads Sample.client st 100 101 (py "Hello")
      (Streaming [Sample.line_a] (Some (py "Connection broken"))) in
  let empty :=
    generate_stream Sample.loads Sample.client st 100 101 (py "Hello")
      (Streaming [Sample.line_garbage] None) in
  let completed :=
    generate_stream Sample.loads Sample.client st 100 101 (py "Hello")
      (Streaming [Sample.line_a; Sample.line_b] None) in
  let no_room :=
    generate_stream Sample.loads Sample.client_no_room st 100 101 (py "Hello")
      (Streaming [Sample.line_a; Sample.line_b] None) in
  (fragments failed = [py "Error: 503 Server Error"] /\ saved failed = None /\
   api_after failed = Sample.client) /\
  (fragments broken = [py "a"; py "Error: Connection broken"] /\
   saved broken = None /\ api_after broken = Sample.client) /\
  (saved empty = None /\ api_after empty = Sample.client /\
   session_after empty = st) /\
  (saved completed <> None /\
   dict_get Sample.hello_key (cache (simple_cache (api_after completed)))
     = Some (py "ab", 101)) /\
  (saved no_room <> None /\ api_after no_room = Sample.client_no_room).
Proof.
  intros st failed broken empty completed no_room.
  assert (Hk : _get_cache_key st (py "Hello") (generate_stream_params st)
               = Return Sample.hello_key) by (vm_compute; reflexivity).
  assert (Hf : falsy (fst (get_from_cache Sample.client 100 Sample.hello_key)))
    by (left; reflexivity).
  assert (Hf0 : falsy (fst (get_from_cache Sample.client_no_room 100
                              Sample.hello_key)))
    by (left; reflexivity).
  split; [|split; [|split; [|split]]].
  - destruct (@C5_cache_written_iff_stream_completes Sample.loads Sample.client st
                100 101 (py "Hello") (RequestFailed (py "503 Server Error"))
                Sample.hello_key Hk) as (_ & _ & _ & H & _).
    destruct (H _ Hf eq_refl) as (Hfr & _ & Hs & Ha & _).
    split; [exact Hfr|]. split; [exact Hs | exact Ha].
  - destruct (@C5_cache_written_iff_stream_completes Sample.loads Sample.client st
                100 101 (py "Hello")
                (Streaming [Sample.line_a] (Some (py "Connection broken")))
                Sample.hello_key Hk) as (_ & _ & _ & _ & H & _).
    destruct (H _ _ {| yielded := [py "a"]; full_response := py "a";
                       tokens_received := 1 |} Hf eq_refl
                ltac:(vm_compute; reflexivity)) as (Hfr & _ & Hs & Ha & _).
    split; [exact Hfr|]. split; [exact Hs | exact Ha].
  - destruct (@C5_cache_written_iff_stream_completes Sample.loads Sample.client st
                100 101 (py "Hello") (Streaming [Sample.line_garbage] None)
                Sample.hello_key Hk) as (_ & _ & _ & _ & _ & H).
    destruct (H _ start Hf eq_refl ltac:(vm_compute; reflexivity) eq_refl)
      as (_ & _ & Hs & Ha & Hst).
    split; [exact Hs|]. split; [exact Ha | exact Hst].
  - destruct (@C5_cache_written_iff_stream_completes Sample.loads Sample.client st
                100 101 (py "Hello")
                (Streaming [Sample.line_a; Sample.line_b] None)
                Sample.hello_key Hk) as (Hiff & Hw & _).
    assert (Hs : saved completed <> None).
    { apply (proj2 Hiff). split; [exact Hf|].
      exists [Sample.line_a; Sample.line_b],
             {| yielded := [py "a"; py "b"]; full_response := py "ab";
                tokens_received := 2 |}.
      split; [reflexivity|]. split; [vm_compute; reflexivity | discriminate]. }
    split; [exact Hs|].
    destruct (Hw Sample.hello_key (py "ab") ltac:(vm_compute; reflexivity))
      as (_ & _ & _ & _ & _ & Hstored & _).
    apply Hstored; [reflexivity | vm_compute; discriminate].
  - destruct (@C5_cache_written_iff_stream_completes Sample.loads
                Sample.client_no_room st 100 101 (py "Hello")
                (Streaming [Sample.line_a; Sample.line_b] None)
                Sample.hello_key Hk) as (Hiff & Hw & _).
    assert (Hs : saved no_room <> None).
    { apply (proj2 Hiff). split; [exact Hf0|].
      exists [Sample.line_a; Sample.line_b],
             {| yielded := [py "a"; py "b"]; full_response := py "ab";
                tokens_received := 2 |}.
      split; [reflexivity|]. split; [vm_compute; reflexivity | discriminate]. }
    split; [exact Hs|].
    destruct (Hw Sample.hello_key (py "ab") ltac:(vm_compute; reflexivity))
      as (_ & _ & _ & _ & _ & _ & Hnone).
    apply Hnone; [reflexivity | vm_compute; reflexivity | reflexivity].
Defined.

(** C5 as stated fails when the write does not take: the stream below ends
    without any failure and with the non-empty text "ab", [save_to_cache] is
    called, and nothing is cached.  With the in-memory store of capacity 0,
    [SimpleCache.setex] raises, the error is swallowed, the store stays
    empty and the next lookup misses; with a Redis connection whose
    commands raise, the [setex] command fails and is swallowed as well. *)
Lemma C5_counterexample :
  let st := Sample.session [Sample.hello] in
  let stream := Streaming [Sample.line_a; Sample.line_b] None in
  let r := generate_stream Sample.loads Sample.client_no_room st 100 101
             (py "Hello") stream in
  let r' := generate_stream Sample.loads Sample.client_redis_down st 100 101
              (py "Hello") stream in
  (fragments r = [py "a"; py "b"] /\ outcome r = Return tt /\
   saved r = Some (Sample.hello_key, py "ab") /\
   SimpleCache.setex (simple_cache Sample.client_no_room) 101 Sample.hello_key
     3600 (py "ab") = Raise ValueError /\
   cache (simple_cache (api_after r)) = [] /\
   fst (get_from_cache (api_after r) 102 Sample.hello_key) = None) /\
  (fragments r' = [py "a"; py "b"] /\ outcome r' = Return tt /\
   saved r' = Some (Sample.hello_key, py "ab") /\
   redis_setex Sample.redis_down Sample.hello_key 3600 (py "ab")
     = Raise RedisError /\
   api_after r' = Sample.client_redis_down /\
   fst (get_from_cache (api_after r') 102 Sample.hello_key) = None).
Proof.
  vm_compute. repeat split.
Qed.

(** C6 (the code departs from the claim).  A line on which [json.loads]
    raises [UnicodeDecodeError], as it does on bytes that are not UTF-8,
    is not skipped: neither [except] clause of the loop catches the error
    and the outer one catches [RequestException] only.  On a cache miss the
    generator yields the fragments of the lines before it and then raises
    to its consumer; no later line is read and nothing is cached. *)
Theorem C6_undecodable_line_aborts_stream :
  forall json_loads self st t_get t_set prompt cache_key before bad after acc,
    _get_cache_key st prompt (generate_stream_params st) = Return cache_key ->
    falsy (fst (get_from_cache self t_get cache_key)) ->
    bad <> [] -> bad <> py "data: [DONE]" ->
    json_loads (payload bad) = Raise UnicodeDecodeError ->
    read_lines json_loads before start = (acc, None) ->
    let r := generate_stream json_loads self st t_get t_set prompt
               (Streaming (before ++ bad :: after) None) in
    fragments r = yielded acc /\
    outcome r = Raise UnicodeDecodeError /\
    saved r = None.
Proof.
  intros json_loads self st t_get t_set prompt cache_key before bad after acc
    Hk Hf Hne Hdone Hbad Hread r.
  destruct (get_from_cache self t_get cache_key) as [cached self'] eqn:Hget.
  subst r.
  rewrite (@generate_stream_miss json_loads self st t_get t_set prompt
             (Streaming (before ++ bad :: after) None) cache_key cached self'
             Hk Hget Hf).
  rewrite read_lines_app, Hread. cbn [read_lines].
  assert (Hp : process_line json_loads bad = Uncaught UnicodeDecodeError).
  { unfold process_line. destruct bad as [|b bad]; [congruence|].
    apply str_eqb_neq in Hdone. now rewrite Hdone, Hbad. }
  rewrite Hp. repeat split.
Qed.

Lemma C6_undecodable_line_witness :
  let r :=
    generate_stream Sample.loads Sample.client (Sample.session [Sample.hello])
      100 101 (py "Hello")
      (Streaming [Sample.line_a; Sample.line_not_utf8; Sample.line_b] None) in
  fragments r = [py "a"] /\ outcome r = Raise UnicodeDecodeError /\ saved r = None.
Proof.
  exact (@C6_undecodable_line_aborts_stream Sample.loads Sample.client
           (Sample.session [Sample.hello]) 100 101 (py "Hello") Sample.hello_key
           [Sample.line_a] Sample.line_not_utf8 [Sample.line_b]
           {| yielded := [py "a"]; full_response := py "a"; tokens_received := 1 |}
           ltac:(vm_compute; reflexivity) (or_introl eq_refl)
           ltac:(discriminate) ltac:(discriminate)
           eq_refl ltac:(vm_compute; reflexivity)).
Defined.

(** ** Failures of the cache backends *)

(** [RedisCache]: a command that raises is a miss on read and nothing on
    write; the methods themselves always return. *)
Lemma RedisCache_get_degrades : forall self key e,
  RedisCache.client_get self key = Raise e -> RedisCache.get self key = None.
Proof.
  intros self key e H. unfold RedisCache.get, RedisCache.get_body.
  now rewrite H.
Qed.

(** With [decode_responses=True] the reply is a [str], [value.decode]
    raises [AttributeError], and the hit is reported as a miss. *)
Lemma RedisCache_get_str_reply : forall self key c s,
  RedisCache.client_get self key = Return (Some (RStr (c :: s))) ->
  RedisCache.get self key = None.
Proof.
  intros self key c s H. unfold RedisCache.get, RedisCache.get_body.
  now rewrite H.
Qed.

(** [HuggingFaceAPI.save_to_cache] swallows what [SimpleCache.setex]
    raises and leaves the client as it was. *)
Lemma save_to_cache_swallows : forall self now key response e,
  redis_client self = None ->
  SimpleCache.setex (simple_cache self) now key (cache_ttl self) response
    = Raise e ->
  save_to_cache self now key response = self.
Proof.
  intros self now key response e Hr H. unfold save_to_cache.
  now rewrite Hr, H.
Qed.

(** ** Distinct strings have distinct JSON literals *)

Open Scope N_scope.

Lemma unhex_hex_digit : forall d, d < 16 -> unhex (hex_digit d) = d.
Proof.
  intros d H. unfold unhex, hex_digit.
  destruct (d <? 10) eqn:E.
  - apply N.ltb_lt in E. replace (48 + d <? 58) with true by (symmetry; apply N.ltb_lt; lia). lia.
  - apply N.ltb_ge in E. replace (87 + d <? 58) with false by (symmetry; apply N.ltb_ge; lia). lia.
Qed.

Lemma nibble : forall x, N.land x 0xF = x mod 16.
Proof. intros x. change 0xF with (N.ones 4). now rewrite N.land_ones. Qed.

Lemma unhex4_hex4 : forall n rest, n < 0x10000 ->
  exists h3 h2 h1 h0, hex4 n ++ rest = h3 :: h2 :: h1 :: h0 :: rest /\ unhex4 h3 h2 h1 h0 = n.
Proof.
  intros n rest H. unfold hex4. do 4 eexists. split; [reflexivity|].
  unfold unhex4. rewrite !nibble, !N.shiftr_div_pow2.
  rewrite !unhex_hex_digit by (apply N.mod_lt; discriminate).
  change (2 ^ 12) with 4096. change (2 ^ 8) with 256. change (2 ^ 4) with 16.
  zify. Z.to_euclidean_division_equations. lia.
Qed.

Lemma lor_low10 : forall a x, N.land a (N.ones 10) = 0 -> x < 1024 -> N.lor a x = a + x.
Proof.
  intros a x Ha Hx.
  assert (Hd : N.land a x = 0).
  { rewrite <- (N.mod_small x (2 ^ 10)) by exact Hx.
    rewrite <- N.land_ones, (N.land_comm x), N.land_assoc, Ha. apply N.land_0_l. }
  now rewrite <- (N.lxor_lor _ _ Hd), (N.add_nocarry_lxor _ _ Hd).
Qed.

Lemma low10 : forall x, N.land x 0x3ff = x mod 1024.
Proof. intros x. change 0x3ff with (N.ones 10). now rewrite N.land_ones. Qed.

Lemma escape_char_nonempty : forall c, escape_char c <> [].
Proof.
  intros c. unfold escape_char.
  repeat match goal with |- context [if ?b then _ else _] => destruct b end;
    discriminate.
Qed.

Lemma unescape_plain : forall c r,
  (c =? 92) = false -> unescape_one (c :: r) = Some (c, r).
Proof. intros c r H. unfold unescape_one. now rewrite H. Qed.

Lemma unescape_bmp : forall h3 h2 h1 h0 r,
  ((0xD800 <=? unhex4 h3 h2 h1 h0) && (unhex4 h3 h2 h1 h0 <? 0xDC00)) = false ->
  unescape_one (92 :: 117 :: h3 :: h2 :: h1 :: h0 :: r)
  = Some (unhex4 h3 h2 h1 h0, r).
Proof.
  intros h3 h2 h1 h0 r H. unfold unescape_one.
  change (92 =? 92) with true. change (117 =? 92) with false.
  change (117 =? 34) with false. change (117 =? 98) with false.
  change (117 =? 102) with false. change (117 =? 110) with false.
  change (117 =? 114) with false. change (117 =? 116) with false.
  cbv iota zeta. now rewrite H.
Qed.

Lemma unescape_pair : forall h3 h2 h1 h0 x y l3 l2 l1 l0 r,
  ((0xD800 <=? unhex4 h3 h2 h1 h0) && (unhex4 h3 h2 h1 h0 <? 0xDC00)) = true ->
  unescape_one (92 :: 117 :: h3 :: h2 :: h1 :: h0 :: x :: y :: l3 :: l2 :: l1 :: l0 :: r)
  = Some (0x10000 + (unhex4 h3 h2 h1 h0 - 0xD800) * 1024
          + (unhex4 l3 l2 l1 l0 - 0xDC00), r).
Proof.
  intros h3 h2 h1 h0 x y l3 l2 l1 l0 r H. unfold unescape_one.
  change (92 =? 92) with true. change (117 =? 92) with false.
  change (117 =? 34) with false. change (117 =? 98) with false.
  change (117 =? 102) with false. change (117 =? 110) with false.
  change (117 =? 114) with false. change (117 =? 116) with false.
  cbv iota zeta. now rewrite H.
Qed.

Lemma unescape_escape : forall c rest,
  scalar c -> unescape_one (escape_char c ++ rest) = Some (c, rest).
Proof.
  intros c rest Hc. unfold escape_char.
  destruct (c =? 92) eqn:E92; [apply N.eqb_eq in E92; now subst|].
  destruct (c =? 34) eqn:E34; [apply N.eqb_eq in E34; now subst|].
  destruct (c =? 8) eqn:E8; [apply N.eqb_eq in E8; now subst|].
  destruct (c =? 12) eqn:E12; [apply N.eqb_eq in E12; now subst|].
  destruct (c =? 10) eqn:E10; [apply N.eqb_eq in E10; now subst|].
  destruct (c =? 13) eqn:E13; [apply N.eqb_eq in E13; now subst|].
  destruct (c =? 9) eqn:E9; [apply N.eqb_eq in E9; now subst|].
  destruct ((32 <=? c) && (c <=? 126)) eqn:Ep.
  - change ([c] ++ rest) with (c :: rest). now apply unescape_plain.
  - destruct (c <? 0x10000) eqn:Eb.
    + apply N.ltb_lt in Eb.
      destruct (unhex4_hex4 rest Eb) as (h3 & h2 & h1 & h0 & Hh & Hn).
      rewrite <- app_assoc, Hh.
      change ([92; 117] ++ h3 :: h2 :: h1 :: h0 :: rest)
        with (92 :: 117 :: h3 :: h2 :: h1 :: h0 :: rest).
      rewrite unescape_bmp; rewrite Hn; [reflexivity|].
      apply andb_false_iff.
      destruct Hc as [Hc|[Hc _]];
        [left; apply N.leb_gt; exact Hc | right; apply N.ltb_ge].
      apply N.le_trans with (m := 0xE000); [discriminate | exact Hc].
    + apply N.ltb_ge in Eb. destruct Hc as [Hc|[_ Hc]]; [lia|].
      cbv zeta.
      remember (c - 0x10000) as n eqn:Hdef.
      assert (Hn : n < 0x100000) by lia.
      assert (Hhi : n / 1024 < 1024) by (apply N.Div0.div_lt_upper_bound; lia).
      assert (Hlo : n mod 1024 < 1024) by (apply N.mod_lt; discriminate).
      rewrite !low10, N.shiftr_div_pow2. change (2 ^ 10) with 1024.
      rewrite (N.mod_small (n / 1024) 1024) by exact Hhi.
      rewrite !lor_low10 by (reflexivity || assumption).
      assert (H1 : 0xd800 + n / 1024 < 0x10000) by lia.
      assert (H2 : 0xdc00 + n mod 1024 < 0x10000) by lia.
      destruct (unhex4_hex4 ([92; 117] ++ hex4 (0xdc00 + n mod 1024) ++ rest) H1)
        as (h3 & h2 & h1 & h0 & Hh & Hv).
      destruct (unhex4_hex4 rest H2) as (l3 & l2 & l1 & l0 & Hl & Hw).
      rewrite <- !app_assoc. rewrite Hh, Hl.
      change ([92; 117] ++ h3 :: h2 :: h1 :: h0 :: [92; 117] ++ l3 :: l2 :: l1 :: l0 :: rest)
        with (92 :: 117 :: h3 :: h2 :: h1 :: h0 :: 92 :: 117 :: l3 :: l2 :: l1 :: l0 :: rest).
      rewrite unescape_pair; rewrite Hv.
      * rewrite Hw. f_equal. f_equal.
        clear Hh Hl Hv Hw. zify. Z.to_euclidean_division_equations. lia.
      * apply andb_true_iff. split; [apply N.leb_le; apply N.le_add_r|].
        apply N.ltb_lt. lia.
Qed.

Lemma escape_inj : forall s s',
  Forall scalar s -> Forall scalar s' ->
  flat_map escape_char s = flat_map escape_char s' -> s = s'.
Proof.
  induction s as [|c s IH]; intros s' Hs Hs' H.
  - destruct s' as [|c' s']; [reflexivity|]. simpl in H.
    symmetry in H. apply app_eq_nil in H. destruct H as [H _].
    now apply escape_char_nonempty in H.
  - destruct s' as [|c' s'].
    + simpl in H. apply app_eq_nil in H. destruct H as [H _].
      now apply escape_char_nonempty in H.
    + inversion Hs as [|? ? Hc Hs1]; inversion Hs' as [|? ? Hc' Hs1']; subst.
      simpl in H. apply (f_equal unescape_one) in H.
      rewrite !unescape_escape in H by assumption.
      injection H as -> H. f_equal. now apply IH.
Qed.

Close Scope N_scope.

Lemma py_inj : forall s s', py s = py s' -> s = s'.
Proof.
  intros s s' H. unfold py in H.
  assert (Hl : list_ascii_of_string s = list_ascii_of_string s').
  { revert H. generalize (list_ascii_of_string s) (list_ascii_of_string s').
    induction l as [|a l IH]; intros [|a' l']; simpl; try discriminate; [reflexivity|].
    intros [= Ha Hl]. f_equal; [|now apply IH].
    rewrite <- (ascii_N_embedding a), <- (ascii_N_embedding a'). now rewrite Ha. }
  rewrite <- (string_of_list_ascii_of_string s), <- (string_of_list_ascii_of_string s').
  now rewrite Hl.
Qed.

Lemma int_repr_inj : forall a b, int_repr a = int_repr b -> a = b.
Proof.
  intros a b H. unfold int_repr in H. apply py_inj in H.
  apply to_int_inj.
  assert (Hnn : forall z, Z.to_int z <> Decimal.Pos Decimal.Nil /\
                          Z.to_int z <> Decimal.Neg Decimal.Nil).
  { intros [|p|p]; simpl; split; try discriminate;
      intros [= E]; now apply Unsigned.to_uint_nonnil in E. }
  destruct (Hnn a) as [Ha1 Ha2]. destruct (Hnn b) as [Hb1 Hb2].
  pose proof (NilZero.isi _ Ha1 Ha2) as Ia.
  pose proof (NilZero.isi _ Hb1 Hb2) as Ib.
  rewrite H in Ia. congruence.
Qed.

Lemma join_middle : forall sep before x after,
  join sep (before ++ x :: after) =
  join_before sep before ++ x ++ join_after sep after.
Proof.
  intros sep before x after. induction before as [|p before IH].
  - simpl. destruct after; [now rewrite app_nil_r | reflexivity].
  - simpl app. simpl join_before. rewrite <- !app_assoc, <- IH.
    simpl. destruct (before ++ x :: after) eqn:E; [|reflexivity].
    destruct before; discriminate.
Qed.

Lemma json_string_inj : forall s s',
  Forall scalar s -> Forall scalar s' -> json_string s = json_string s' -> s = s'.
Proof.
  intros s s' Hs Hs' H. unfold json_string in H.
  apply app_inv_head in H. apply app_inv_tail in H. now apply escape_inj.
Qed.

Lemma dumps_message : forall r c,
  json_dumps true (JObj [(py "role", JStr r); (py "content", JStr c)])
  = message_text r c.
Proof.
  intros r c. unfold message_text. cbn [json_dumps map].
  change (sorted_items [(py "role", json_string r); (py "content", json_string c)])
    with [(py "content", json_string c); (py "role", json_string r)].
  cbn [map join fst snd]. now rewrite <- !app_assoc.
Qed.

(** ** Sensitivity of the hashed text *)

(** A message with at most nine turns after it, the live prompt among
    them, is in the window the code slices. *)
Lemma last_messages_split : forall pre m post,
  post <> [] -> (length post <= 9)%nat ->
  last_messages (pre ++ m :: post) =
  skipn (length pre + length post - 9) pre ++ m :: removelast post.
Proof.
  intros pre m post Hne Hlen. rewrite last_messages_window.
  rewrite removelast_app by discriminate.
  replace (removelast (m :: post)) with (m :: removelast post)
    by (destruct post; [congruence | reflexivity]).
  assert (Hrl : S (length (removelast post)) = length post).
  { destruct post as [|p post]; [congruence|].
    rewrite removelast_firstn_len, length_firstn. simpl. lia. }
  rewrite length_app. simpl length.
  replace (length pre + S (length (removelast post)) - 9)%nat
    with (length pre + length post - 9)%nat by lia.
  rewrite skipn_app.
  replace (length pre + length post - 9 - length pre)%nat with 0%nat by lia.
  reflexivity.
Qed.

(** The context string around the text of one message of the window. *)
Lemma cache_context_split : forall st pre m post,
  messages st = pre ++ m :: post ->
  post <> [] -> (length post <= 9)%nat ->
  cache_context st =
  (py "[" ++ join_before (py ", ")
     (map (json_dumps true)
        (map message_json (skipn (length pre + length post - 9) pre))))
  ++ message_text (role m) (firstn 100 (content m))
  ++ (join_after (py ", ")
        (map (json_dumps true) (map message_json (removelast post)))
      ++ py "]").
Proof.
  intros st pre m post Hm Hne Hlen. unfold cache_context. rewrite Hm.
  destruct (pre ++ m :: post) as [|x l] eqn:E; [destruct pre; discriminate|].
  rewrite <- E. rewrite last_messages_split by assumption.
  fold message_json. cbn [json_dumps]. rewrite !map_app. cbn [map].
  rewrite join_middle. unfold message_json at 2. rewrite dumps_message.
  now rewrite <- !app_assoc.
Qed.

Lemma key_content_context_inj : forall st st' prompt params,
  key_content st prompt params = key_content st' prompt params ->
  cache_context st = cache_context st'.
Proof.
  intros st st' prompt params H. unfold key_content in H.
  do 3 (apply app_inv_head in H). now apply app_inv_tail in H.
Qed.

(** *** Values that are no containers have distinct JSON texts *)

Lemma string_of_uint_digits : forall d,
  Forall sign_or_digit (py (NilEmpty.string_of_uint d)).
Proof.
  unfold py. induction d; simpl; constructor; trivial; left; split; discriminate.
Qed.

Lemma int_repr_chars : forall z, Forall sign_or_digit (int_repr z).
Proof.
  intros z. unfold int_repr, NilZero.string_of_int.
  assert (H : forall d, Forall sign_or_digit (py (NilZero.string_of_uint d))).
  { intros d. destruct d; try apply string_of_uint_digits.
    repeat constructor; discriminate. }
  destruct (Z.to_int z) as [d|d]; [apply H|].
  change (py (String "-" (NilZero.string_of_uint d)))
    with (45%N :: py (NilZero.string_of_uint d)).
  constructor; [now right | apply H].
Qed.

Lemma float_text_not_int : forall text,
  float_text text = true -> ~ Forall sign_or_digit text.
Proof.
  intros text H Hall. rewrite Forall_forall in Hall. unfold float_text in H.
  assert (Hbad : forall c, In c text -> (57 < c)%N \/ c = 46%N -> False).
  { intros c Hin Hc. specialize (Hall c Hin). unfold sign_or_digit in Hall. lia. }
  rewrite !orb_true_iff in H. destruct H as [[[H|H]|H]|H].
  - apply str_eqb_eq in H. subst text.
    apply (Hbad 78%N); [now left | left; reflexivity].
  - apply str_eqb_eq in H. subst text.
    apply (Hbad 73%N); [now left | left; reflexivity].
  - apply str_eqb_eq in H. subst text.
    apply (Hbad 73%N); [right; now left | left; reflexivity].
  - apply andb_true_iff in H. destruct H as [_ H].
    apply existsb_exists in H. destruct H as (c & Hin & Hc).
    apply (Hbad c Hin). apply orb_true_iff in Hc.
    destruct Hc as [Hc|Hc]; apply N.eqb_eq in Hc; subst c;
      [now right | left; reflexivity].
Qed.

Lemma float_text_not_quoted : forall text,
  float_text (34%N :: text) = false.
Proof. intros text. reflexivity. Qed.

Lemma int_repr_not_quoted : forall z text, int_repr z <> 34%N :: text.
Proof.
  intros z text H. pose proof (int_repr_chars z) as Hall. rewrite H in Hall.
  inversion Hall as [|? ? [[Hc _]|Hc] _]; subst; [now apply Hc | discriminate].
Qed.

Lemma int_repr_not_word : forall z word,
  (exists c rest, py word = c :: rest /\ (57 < c)%N) -> int_repr z <> py word.
Proof.
  intros z word (c & rest & Hw & Hc) H.
  pose proof (int_repr_chars z) as Hall. rewrite H, Hw in Hall.
  inversion Hall as [|? ? [[_ Hd]|Hd] _]; subst; [|discriminate].
  apply N.lt_nge in Hc. contradiction.
Qed.

Lemma float_text_not_word : forall word text,
  text = py word -> float_text (py word) = false -> float_text text = true ->
  False.
Proof. intros word text E Hw Ht. rewrite E in Ht. congruence. Qed.

(** Two different values that are no containers never serialise alike. *)
Lemma simple_value_dumps_inj : forall v v',
  simple_value v -> simple_value v' ->
  json_dumps true v = json_dumps true v' -> v = v'.
Proof.
  assert (Hnull : exists c rest, py "null" = c :: rest /\ (57 < c)%N)
    by (do 2 eexists; split; reflexivity).
  assert (Htrue : exists c rest, py "true" = c :: rest /\ (57 < c)%N)
    by (do 2 eexists; split; reflexivity).
  assert (Hfalse : exists c rest, py "false" = c :: rest /\ (57 < c)%N)
    by (do 2 eexists; split; reflexivity).
  assert (Hquote : forall s, exists rest, json_string s = 34%N :: rest)
    by (intros s; eexists; reflexivity).
  intros v v' Hv Hv' H.
  destruct v as [|[|]|z|t|s|l|d], v' as [|[|]|z'|t'|s'|l'|d'];
    cbn [simple_value] in Hv, Hv'; try contradiction;
    cbn [json_dumps] in H; try reflexivity;
    try (match type of H with py _ = py _ => exfalso; vm_compute in H end;
         discriminate);
    try (exfalso; refine (@int_repr_not_word _ _ _ H); assumption);
    try (exfalso; symmetry in H; refine (@int_repr_not_word _ _ _ H); assumption);
    try (exfalso; refine (@float_text_not_word _ _ H eq_refl _); assumption);
    try (exfalso; symmetry in H;
         refine (@float_text_not_word _ _ H eq_refl _); assumption);
    try (exfalso; destruct (Hquote s') as [rest Hq]; rewrite Hq in H;
         first [ discriminate
               | now apply int_repr_not_quoted in H
               | subst; now rewrite float_text_not_quoted in Hv ]);
    try (exfalso; destruct (Hquote s) as [rest Hq]; rewrite Hq in H;
         symmetry in H;
         first [ discriminate
               | now apply int_repr_not_quoted in H
               | subst; now rewrite float_text_not_quoted in Hv' ]).
  - f_equal. now apply int_repr_inj.
  - exfalso. apply (float_text_not_int Hv'). rewrite <- H. apply int_repr_chars.
  - exfalso. apply (float_text_not_int Hv). rewrite H. apply int_repr_chars.
  - now f_equal.
  - f_equal. now apply json_string_inj.
Qed.

(** *** One entry of a serialised dictionary *)

(** Where [sorted] puts an entry depends on its key only. *)
Lemma insert_by_key_split : forall A (name : pystr) (l : list (pystr * A)),
  exists L R, forall t : A, insert_by_key (name, t) l = L ++ (name, t) :: R.
Proof.
  intros A name l. induction l as [|kv l (L & R & IH)].
  - exists [], []. reflexivity.
  - destruct (str_ltb (fst kv) name) eqn:E.
    + exists (kv :: L), R. intros t. cbn [insert_by_key fst]. rewrite E, IH.
      reflexivity.
    + exists [], (kv :: l). intros t. cbn [insert_by_key fst]. now rewrite E.
Qed.

Lemma insert_by_key_around : forall A (kv : pystr * A) (name : pystr) L R,
  exists L' R', forall t : A,
    insert_by_key kv (L ++ (name, t) :: R) = L' ++ (name, t) :: R'.
Proof.
  intros A kv name L R. induction L as [|x L (L' & R' & IH)].
  - destruct (str_ltb name (fst kv)) eqn:E.
    + exists [], (insert_by_key kv R). intros t.
      cbn [app insert_by_key fst]. now rewrite E.
    + exists [kv], R. intros t. cbn [app insert_by_key fst]. now rewrite E.
  - destruct (str_ltb (fst x) (fst kv)) eqn:E.
    + exists (x :: L'), R'. intros t.
      change ((x :: L) ++ (name, t) :: R) with (x :: (L ++ (name, t) :: R)).
      cbn [insert_by_key]. rewrite E, IH. reflexivity.
    + exists (kv :: x :: L), R. intros t.
      change ((x :: L) ++ (name, t) :: R) with (x :: (L ++ (name, t) :: R)).
      cbn [insert_by_key]. now rewrite E.
Qed.

Lemma sorted_items_split : forall A (before : list (pystr * A)) name after,
  exists L R, forall t : A,
    sorted_items (before ++ (name, t) :: after) = L ++ (name, t) :: R.
Proof.
  intros A before name after. unfold sorted_items.
  induction before as [|kv before (L & R & IH)].
  - cbn [app fold_right]. apply insert_by_key_split.
  - destruct (insert_by_key_around kv name L R) as (L' & R' & H).
    exists L', R'. intros t. cbn [app fold_right]. now rewrite IH.
Qed.

(** The serialised dictionary around the text of one of its values. *)
Lemma dumps_entry_split : forall before name after,
  exists P S, forall x,
    json_dumps true (JObj (before ++ (name, x) :: after)) =
    P ++ json_dumps true x ++ S.
Proof.
  intros before name after.
  set (f := fun kv : pystr * json =>
              match kv with (k, v) => (k, json_dumps true v) end).
  destruct (sorted_items_split (map f before) name (map f after))
    as (L & R & H).
  set (render := fun kv : pystr * pystr =>
                   json_string (fst kv) ++ py ": " ++ snd kv).
  exists (py "{" ++ join_before (py ", ") (map render L)
          ++ json_string name ++ py ": "),
         (join_after (py ", ") (map render R) ++ py "}").
  intros x. cbn [json_dumps]. fold f. fold render.
  rewrite map_app. cbn [map]. change (f (name, x)) with (name, json_dumps true x).
  rewrite H, map_app. cbn [map]. rewrite join_middle.
  unfold render at 2. cbn [fst snd]. now rewrite <- !app_assoc.
Qed.

Lemma key_content_entry : forall st prompt before name after x x',
  key_content st prompt (before ++ (name, x') :: after)
    = key_content st prompt (before ++ (name, x) :: after)
  <-> json_dumps true x' = json_dumps true x.
Proof.
  intros st prompt before name after x x'. unfold key_content.
  destruct (dumps_entry_split before name after) as (P & S & H).
  rewrite !H. split.
  - intros E. do 6 (apply app_inv_head in E). now apply app_inv_tail in E.
  - now intros ->.
Qed.

Lemma key_content_message : forall st prompt params pre m post text,
  messages st = pre ++ m :: post ->
  post <> [] -> (length post <= 9)%nat ->
  key_content (with_messages st (pre ++ with_content m text :: post))
    prompt params = key_content st prompt params
  <-> json_string (firstn 100 text) = json_string (firstn 100 (content m)).
Proof.
  intros st prompt params pre m post text Hm Hpost Hlen.
  set (st' := with_messages st (pre ++ with_content m text :: post)).
  assert (Hm' : messages st' = pre ++ with_content m text :: post) by reflexivity.
  unfold key_content.
  rewrite (@cache_context_split st' pre (with_content m text) post Hm' Hpost Hlen).
  rewrite (@cache_context_split st pre m post Hm Hpost Hlen).
  unfold message_text. cbn [role content with_content]. split.
  - intros H. do 3 (apply app_inv_head in H). apply app_inv_tail in H.
    apply app_inv_head in H. apply app_inv_tail in H.
    do 3 (apply app_inv_head in H). now apply app_inv_tail in H.
  - now intros ->.
Qed.




(** * Further properties of the code *)

(** ** The bounded in-memory caches *)

(** X1.  A store built by [__init__] and used through its three methods never
    holds more entries than its capacity (none at all when the capacity is
    below one), and its keys stay distinct. *)
Theorem cache_never_exceeds_capacity : forall C T self,
  reachable C T self ->
  len (cache self) <= Z.max C 0 /\ dict_wf (cache self) /\
  max_size self = C /\ ttl self = T.
Proof.
  intros C T self H. destruct (reachable_inv H) as (Hm & Ht & Hwf & Hlen).
  repeat split; try assumption.
  destruct Hlen as [Hlen | ->]; [lia | rewrite len_nil; lia].
Qed.

Lemma cache_never_exceeds_capacity_witness :
  len (cache Sample.full2) <= Z.max 2 0 /\ dict_wf (cache Sample.full2) /\
  max_size Sample.full2 = 2 /\ ttl Sample.full2 = 3600.
Proof.
  apply cache_never_exceeds_capacity.
  apply reach_setex with
    (self := {| cache := [entry_of Sample.wA]; max_size := 2; ttl := 3600 |})
    (now := 101) (key := py "B") (expire_time := 60) (value := py "beta");
    [|reflexivity].
  apply reach_setex with
    (self := MemoryCache.__init__ 3600 2)
    (now := 100) (key := py "A") (expire_time := 60) (value := py "alpha");
    [constructor|reflexivity].
Defined.

(** X2.  [setex] touches two keys at most: the key it writes and, on a store at
    or above capacity, the key [min] selects.  Every other key keeps its
    value and its timestamp. *)
Theorem setex_preserves_other_entries :
  forall self now key expire_time value self' key',
    MemoryCache.setex self now key expire_time value = Return self' ->
    key' <> key ->
    (len (cache self) < max_size self ->
       dict_get key' (cache self') = dict_get key' (cache self)) /\
    (forall oldest,
       py_min (cache self) = Return oldest -> key' <> fst oldest ->
       dict_get key' (cache self') = dict_get key' (cache self)).
Proof.
  intros self now key e v self' key' Hs Hne. split.
  - intros Hroom. rewrite (setex_room _ _ _ _ _ Hroom) in Hs.
    injection Hs as <-. cbn [cache with_cache].
    apply dict_get_set_other. congruence.
  - intros oldest Hmin Hold. revert Hs. unfold MemoryCache.setex.
    destruct (max_size self <=? len (cache self)).
    + rewrite Hmin. cbn [bind]. intros [= <-]. cbn [cache with_cache].
      rewrite dict_get_set_other by congruence.
      apply dict_get_del_other. congruence.
    + cbn [bind]. intros [= <-]. cbn [cache with_cache].
      apply dict_get_set_other. congruence.
Qed.

Lemma setex_preserves_other_entries_witness :
  exists self',
    MemoryCache.setex Sample.full2 200 (py "C") 60 (py "gamma") = Return self' /\
    dict_get (py "B") (cache self') = Some (py "beta", 101).
Proof.
  eexists. split; [reflexivity|].
  destruct (@setex_preserves_other_entries Sample.full2 200 (py "C") 60
              (py "gamma") _ (py "B") eq_refl ltac:(discriminate)) as [_ H].
  rewrite (H (entry_of Sample.wA) eq_refl ltac:(discriminate)). reflexivity.
Defined.

(** X3.  [get] never refreshes and never sweeps: a hit leaves the store as it
    was, timestamps included, so the entry read is no younger for eviction;
    a miss removes at most the requested key, and only when that entry has
    expired; no other key is ever affected. *)
Theorem get_leaves_other_entries : forall self now key,
  (forall value, fst (MemoryCache.get self now key) = Some value ->
     snd (MemoryCache.get self now key) = self) /\
  (forall key', key' <> key ->
     dict_get key' (cache (snd (MemoryCache.get self now key)))
       = dict_get key' (cache self)) /\
  len (cache self) - 1 <= len (cache (snd (MemoryCache.get self now key))) /\
  (dict_get key (cache self) = None ->
     MemoryCache.get self now key = (None, self)).
Proof.
  intros self now key. unfold MemoryCache.get.
  destruct (dict_get key (cache self)) as [[value ts]|] eqn:E.
  - destruct (now - ts <? ttl self); cbn [fst snd cache with_cache].
    + repeat split; auto; try lia; try discriminate.
    + split; [discriminate|]. split; [|split; [|discriminate]].
      * intros key' Hne. apply dict_get_del_other. congruence.
      * rewrite len_dict_del; [lia|].
        apply dict_get_In in E. unfold dict_keys.
        change key with (fst (key, (value, ts))). now apply in_map.
  - cbn [fst snd]. repeat split; auto; try lia; try discriminate.
Qed.

(** ** [RedisCache] *)

(** X4.  [RedisCache.get] returns a text exactly when the client replies with
    non-empty [bytes] that are valid UTF-8, and then the decoded text.  An
    error of the client, no reply, an empty reply, [bytes] that do not
    decode and any [str] reply (the reply of a client that decodes
    responses itself) all come back as a miss. *)
Theorem RedisCache_get_hit_iff : forall self key text,
  RedisCache.get self key = Some text <->
  exists b rest,
    RedisCache.client_get self key = Return (Some (RBytes (b :: rest))) /\
    decode (b :: rest) = Return text.
Proof.
  intros self key text. unfold RedisCache.get, RedisCache.get_body. split.
  - destruct (RedisCache.client_get self key) as [[[s|data]|]|e];
      cbn [bind]; try discriminate.
    + destruct s; discriminate.
    + destruct data as [|b rest]; [discriminate|]. cbn [RedisCache.nonempty].
      destruct (decode (b :: rest)) as [s|e] eqn:E; cbn [bind]; [|discriminate].
      intros [= <-]. now exists b, rest.
  - intros (b & rest & -> & Hd). cbn [bind RedisCache.nonempty]. now rewrite Hd.
Qed.

(** ** The cache helpers of [HuggingFaceAPI] *)

(** X5.  Round trip through the in-memory backend: what [save_to_cache] stored
    at clock reading [t], [get_from_cache] returns while [now - t] is below
    the store's TTL and reports as a miss from then on. *)
Theorem save_then_get_from_cache : forall self t now key response,
  redis_client self = None ->
  1 <= max_size (simple_cache self) ->
  let self' := save_to_cache self t key response in
  redis_client self' = None /\
  (now - t < ttl (simple_cache self) ->
     get_from_cache self' now key = (Some response, self')) /\
  (ttl (simple_cache self) <= now - t ->
     fst (get_from_cache self' now key) = None).
Proof.
  intros self t now key response Hr Hm self'.
  assert (Hstored : dict_get key (cache (simple_cache self')) = Some (response, t))
    by (apply save_to_cache_simple; assumption).
  assert (Hcfg : redis_client self' = None /\
                 ttl (simple_cache self') = ttl (simple_cache self)).
  { subst self'. unfold save_to_cache. rewrite Hr.
    destruct (SimpleCache.setex (simple_cache self) t key (cache_ttl self) response)
      as [c|e] eqn:E; cbn; [|auto].
    rewrite SimpleCache_setex_eq in E.
    destruct (setex_keeps_config _ _ _ _ _ E) as [_ Ht]. auto. }
  destruct Hcfg as [Hr' Ht]. split; [exact Hr'|].
  unfold get_from_cache. rewrite Hr', SimpleCache_get_eq. split.
  - intros Hlt. rewrite (get_hit _ _ _ Hstored) by lia.
    unfold with_simple_cache. now destruct self'.
  - intros Hge. rewrite (get_expired _ _ _ Hstored) by lia. reflexivity.
Qed.

Lemma save_then_get_from_cache_witness :
  get_from_cache (save_to_cache Sample.client 101 Sample.hello_key (py "ab c"))
    3700 Sample.hello_key
  = (Some (py "ab c"),
     save_to_cache Sample.client 101 Sample.hello_key (py "ab c")).
Proof.
  apply (@save_then_get_from_cache Sample.client 101 3700 Sample.hello_key
           (py "ab c") eq_refl ltac:(simpl; lia)).
  simpl. lia.
Defined.

(** X6.  With a Redis connection the in-memory store is never read or written,
    also when a Redis command fails: a failed [get] is a miss even for a
    key the in-memory store holds, and a failed [setex] or [flushall]
    changes nothing. *)
Theorem redis_client_bypasses_memory_cache : forall self client now key response,
  redis_client self = Some client ->
  get_from_cache self now key =
    (match redis_get client key with Return r => r | Raise _ => None end, self) /\
  save_to_cache self now key response = self /\
  clear_cache self = self.
Proof.
  intros self client now key response Hr.
  unfold get_from_cache, save_to_cache, clear_cache. rewrite Hr.
  repeat split.
  - now destruct (redis_get client key).
  - now destruct (redis_setex client key (cache_ttl self) response).
  - now destruct (redis_flushall client).
Qed.

Lemma redis_client_bypasses_witness :
  let down := {| redis_get := fun _ => Raise RedisError;
                 redis_setex := fun _ _ _ => Raise RedisError;
                 redis_flushall := Raise RedisError |} in
  let self := {| redis_client := Some down;
                 simple_cache := simple_cache Sample.client_cached;
                 cache_ttl := 3600 |} in
  get_from_cache self 200 Sample.hello_key = (None, self) /\
  save_to_cache self 200 Sample.hello_key (py "x") = self /\
  clear_cache self = self.
Proof.
  intros down self.
  exact (@redis_client_bypasses_memory_cache self down 200 Sample.hello_key
           (py "x") eq_refl).
Defined.

(** X7.  Without Redis and with a capacity below one, nothing is ever cached:
    [save_to_cache] swallows the [ValueError] of [setex] and leaves the
    client as [__init__] built it, and every lookup is a miss. *)
Theorem zero_capacity_caches_nothing : forall T C now key response,
  C <= 0 ->
  save_to_cache (api_init T C None) now key response = api_init T C None /\
  get_from_cache (api_init T C None) now key = (None, api_init T C None).
Proof.
  intros T C now key response HC. split.
  - unfold save_to_cache. cbn [redis_client api_init simple_cache cache_ttl].
    rewrite SimpleCache_setex_eq, setex_empty_full; [reflexivity | reflexivity |].
    exact HC.
  - reflexivity.
Qed.

Lemma zero_capacity_caches_nothing_witness :
  save_to_cache (api_init 3600 0 None) 100 Sample.hello_key (py "ab c")
    = api_init 3600 0 None /\
  get_from_cache (api_init 3600 0 None) 100 Sample.hello_key
    = (None, api_init 3600 0 None).
Proof.
  apply zero_capacity_caches_nothing. lia.
Defined.

(** X8.  [clear_cache] on the in-memory backend: every later lookup is a miss,
    at any clock reading, and the capacity and TTL are kept. *)
Theorem clear_cache_empties_memory_cache : forall self now key,
  redis_client self = None ->
  get_from_cache (clear_cache self) now key = (None, clear_cache self) /\
  max_size (simple_cache (clear_cache self)) = max_size (simple_cache self) /\
  ttl (simple_cache (clear_cache self)) = ttl (simple_cache self).
Proof.
  intros self now key Hr. unfold clear_cache, get_from_cache. rewrite Hr.
  cbn [redis_client with_simple_cache]. rewrite Hr. repeat split.
Qed.

Lemma clear_cache_empties_witness :
  get_from_cache (clear_cache Sample.client_cached) 102 Sample.hello_key
  = (None, clear_cache Sample.client_cached).
Proof.
  apply (@clear_cache_empties_memory_cache Sample.client_cached 102
           Sample.hello_key eq_refl).
Defined.

(** ** Key derivation and prompt formatting *)

Lemma last_messages_long : forall old recent last,
  length recent = 9%nat ->
  last_messages (old ++ recent ++ [last]) = recent.
Proof.
  intros old recent last H. rewrite last_messages_window.
  rewrite app_assoc, removelast_last, length_app, H.
  replace (length old + 9 - 9)%nat with (length old + 0)%nat by lia.
  rewrite skipn_app, Nat.add_0_r, skipn_all.
  replace (length old - length old)%nat with 0%nat by lia. reflexivity.
Qed.

Lemma cache_context_nonempty : forall st,
  messages st <> [] ->
  cache_context st =
  json_dumps true (JArr (map message_json (last_messages (messages st)))).
Proof.
  intros st H. unfold cache_context. now destruct (messages st).
Qed.

Lemma format_prompt_window : forall st text,
  format_prompt st text =
  py "<|im_start|>system" ++ [10%N] ++ system_prompt ++ [10%N]
  ++ py "<|im_end|>" ++ [10%N]
  ++ flat_map (fun msg =>
                 py "<|im_start|>"
                 ++ (if fst (turn_view msg) then py "user" else py "assistant")
                 ++ [10%N] ++ snd (turn_view msg) ++ [10%N]
                 ++ py "<|im_end|>" ++ [10%N])
              (last_messages (messages st))
  ++ py "<|im_start|>user" ++ [10%N] ++ text ++ [10%N]
  ++ py "<|im_end|>" ++ [10%N] ++ py "<|im_start|>assistant" ++ [10%N].
Proof.
  intros st text. unfold format_prompt. now destruct (messages st).
Qed.

(** X9.  The conversational horizon: with nine turns between them and the live
    prompt, older messages, however many and whatever they say, change
    neither the cache key nor the formatted prompt; nor does the last
    message of the history, which stands for the live prompt. *)
Theorem older_messages_are_ignored :
  forall st st' prompt params old old' recent last last',
    length recent = 9%nat ->
    messages st = old ++ recent ++ [last] ->
    messages st' = old' ++ recent ++ [last'] ->
    _get_cache_key st prompt params = _get_cache_key st' prompt params /\
    format_prompt st prompt = format_prompt st' prompt.
Proof.
  intros st st' prompt params old old' recent last last' Hlen Hm Hm'.
  assert (Hne : forall (a b : list message) x, a ++ b ++ [x] <> []).
  { intros a b x E. apply app_eq_nil in E. destruct E as [_ E].
    apply app_eq_nil in E. destruct E as [_ E]. discriminate. }
  split.
  - unfold _get_cache_key, key_content.
    rewrite !cache_context_nonempty by (rewrite ?Hm, ?Hm'; apply Hne).
    now rewrite Hm, Hm', !last_messages_long.
  - rewrite !format_prompt_window.
    now rewrite Hm, Hm', !last_messages_long.
Qed.

Lemma older_messages_are_ignored_witness :
  _get_cache_key
    (Sample.session (Sample.long_x :: repeat Sample.hello 9 ++ [Sample.hello]))
    (py "Hello") (generate_params (Sample.session []))
  = _get_cache_key
      (Sample.session ([] ++ repeat Sample.hello 9 ++ [Sample.long_y]))
      (py "Hello") (generate_params (Sample.session [])) /\
  format_prompt
    (Sample.session (Sample.long_x :: repeat Sample.hello 9 ++ [Sample.hello]))
    (py "Hello")
  = format_prompt
      (Sample.session ([] ++ repeat Sample.hello 9 ++ [Sample.long_y]))
      (py "Hello").
Proof.
  apply (@older_messages_are_ignored
           (Sample.session (Sample.long_x :: repeat Sample.hello 9 ++ [Sample.hello]))
           (Sample.session ([] ++ repeat Sample.hello 9 ++ [Sample.long_y]))
           (py "Hello") (generate_params (Sample.session []))
           [Sample.long_x] [] (repeat Sample.hello 9) Sample.hello Sample.long_y
           eq_refl eq_refl eq_refl).
Defined.

Lemma flat_map_through_map : forall A B C (f : A -> B) (g : B -> list C) l,
  flat_map (fun x => g (f x)) l = flat_map g (map f l).
Proof.
  intros A B C f g l. induction l as [|x l IH]; simpl; [reflexivity|].
  now rewrite IH.
Qed.

(** X10.  [format_prompt] reads of each window message only whether its role is
    [user] and its content: every other role is rendered as [assistant],
    and an empty history formats like one that holds only the live
    prompt. *)
Theorem format_prompt_reads_role_as_user_or_not : forall st st' text,
  map turn_view (last_messages (messages st))
    = map turn_view (last_messages (messages st')) ->
  format_prompt st text = format_prompt st' text.
Proof.
  intros st st' text H. rewrite !format_prompt_window.
  do 6 f_equal.
  rewrite !(flat_map_through_map turn_view
    (fun v : bool * pystr =>
       py "<|im_start|>" ++ (if fst v then py "user" else py "assistant")
       ++ [10%N] ++ snd v ++ [10%N] ++ py "<|im_end|>" ++ [10%N])).
  now rewrite H.
Qed.

Lemma format_prompt_reads_role_witness :
  format_prompt
    (Sample.session [{| role := py "system"; content := py "Be brief." |};
                     Sample.hello]) (py "Hello")
  = format_prompt
      (Sample.session [{| role := py "assistant"; content := py "Be brief." |};
                       Sample.hello]) (py "Hello").
Proof.
  apply format_prompt_reads_role_as_user_or_not. reflexivity.
Defined.

Open Scope N_scope.

Lemma hex_digit_char : forall d, d < 16 -> hex_char (hex_digit d).
Proof.
  intros d H. unfold hex_char, hex_digit. destruct (d <? 10) eqn:E.
  - apply N.ltb_lt in E. left. lia.
  - apply N.ltb_ge in E. right. lia.
Qed.

Lemma le_bytes_length : forall n x, length (MD5.le_bytes n x) = n.
Proof. induction n as [|n IH]; intros x; simpl; [reflexivity | now rewrite IH]. Qed.

Lemma le_bytes_small : forall n x, Forall (fun b => b < 256) (MD5.le_bytes n x).
Proof.
  induction n as [|n IH]; intros x; simpl; constructor; [|apply IH].
  change 0xFF with (N.ones 8). rewrite N.land_ones. now apply N.mod_lt.
Qed.

Lemma hexdigest_format : forall msg,
  length (MD5.hexdigest msg) = 32%nat /\ Forall hex_char (MD5.hexdigest msg).
Proof.
  intros msg. unfold MD5.hexdigest.
  assert (Hlen : length (MD5.digest msg) = 16%nat).
  { unfold MD5.digest. cbv zeta. rewrite !length_app, !le_bytes_length. reflexivity. }
  assert (Hsmall : Forall (fun b => b < 256) (MD5.digest msg)).
  { unfold MD5.digest. cbv zeta. repeat (apply Forall_app; split);
      apply le_bytes_small. }
  revert Hlen Hsmall. generalize (MD5.digest msg). intros d. revert d.
  assert (Hgen : forall d : bytes, Forall (fun b => b < 256) d ->
    length (flat_map (fun b => [hex_digit (N.shiftr b 4); hex_digit (N.land b 0xF)]) d)
      = (2 * length d)%nat /\
    Forall hex_char
      (flat_map (fun b => [hex_digit (N.shiftr b 4); hex_digit (N.land b 0xF)]) d)).
  { induction d as [|b d IH]; intros Hd; [split; [reflexivity|constructor]|].
    inversion Hd as [|? ? Hb Hd']; subst. destruct (IH Hd') as [IH1 IH2].
    cbn [flat_map app length]. split; [rewrite IH1; lia|].
    constructor; [|constructor; [|exact IH2]].
    - apply hex_digit_char. rewrite N.shiftr_div_pow2. change (2 ^ 4) with 16.
      apply N.Div0.div_lt_upper_bound. exact Hb.
    - apply hex_digit_char. change 0xF with (N.ones 4). rewrite N.land_ones.
      now apply N.mod_lt. }
  intros d Hlen Hsmall. destruct (Hgen d Hsmall) as [H1 H2].
  split; [rewrite H1, Hlen; reflexivity | exact H2].
Qed.

Close Scope N_scope.

(** X11.  The key format: whenever [_get_cache_key] returns, the key is the text
    [hf_cache:] followed by exactly 32 lowercase hexadecimal digits, 41
    characters in all, whatever the prompt, history and parameters. *)
Theorem cache_key_format : forall st prompt params key,
  _get_cache_key st prompt params = Return key ->
  exists digest,
    key = py "hf_cache:" ++ digest /\
    length digest = 32%nat /\ Forall hex_char digest /\ length key = 41%nat.
Proof.
  intros st prompt params key. unfold _get_cache_key.
  destruct (encode (key_content st prompt params)) as [data|e]; cbn [bind];
    [|discriminate].
  intros [= <-]. destruct (hexdigest_format data) as [Hlen Hhex].
  exists (MD5.hexdigest data). split; [reflexivity|]. split; [exact Hlen|].
  split; [exact Hhex|].
  change (length (py "hf_cache:" ++ MD5.hexdigest data) = 41%nat).
  rewrite length_app, Hlen. reflexivity.
Qed.

Lemma cache_key_format_witness :
  exists digest,
    Sample.hello_key = py "hf_cache:" ++ digest /\
    length digest = 32%nat /\ Forall hex_char digest /\
    length Sample.hello_key = 41%nat.
Proof.
  apply (@cache_key_format (Sample.session [Sample.hello]) (py "Hello")
           (generate_stream_params (Sample.session [Sample.hello]))).
  vm_compute. reflexivity.
Defined.

Lemma encode_raises_only_encode_error : forall s e,
  encode s = Raise e -> e = UnicodeEncodeError.
Proof.
  induction s as [|c s IH]; intros e; simpl; [discriminate|].
  destruct (utf8_char c) as [b|e'] eqn:Ec; cbn [bind].
  - destruct (encode s) as [bs|e'']; cbn [bind]; [discriminate|].
    intros [= <-]. now apply IH.
  - intros [= <-]. unfold utf8_char in Ec.
    repeat match type of Ec with
           | (if ?b then _ else _) = _ => destruct b
           end; congruence.
Qed.

Lemma encode_surrogate : forall s c,
  In c s -> surrogate c -> encode s = Raise UnicodeEncodeError.
Proof.
  induction s as [|c' s IH]; intros c Hin Hc; [destruct Hin|].
  destruct (encode (c' :: s)) as [b|e] eqn:E;
    [|now rewrite (encode_raises_only_encode_error _ E)].
  exfalso. simpl in E. destruct Hin as [->|Hin].
  - unfold utf8_char, surrogate in *. destruct Hc as [H1 H2].
    replace (c <? 0x80)%N with false in E by (symmetry; apply N.ltb_ge; lia).
    replace (c <? 0x800)%N with false in E by (symmetry; apply N.ltb_ge; lia).
    replace (c <? 0x10000)%N with true in E by (symmetry; apply N.ltb_lt; lia).
    replace ((0xD800 <=? c) && (c <=? 0xDFFF))%N with true in E
      by (symmetry; apply andb_true_iff; split; apply N.leb_le; lia).
    discriminate.
  - rewrite (IH c Hin Hc) in E. destruct (utf8_char c'); discriminate.
Qed.

(** X12.  A prompt that holds a surrogate code point cannot be hashed:
    [_get_cache_key] raises [UnicodeEncodeError], which
    [generate_stream] does not catch.  The generator raises before it
    yields anything; the cache is not consulted and neither the cache nor
    the session is written. *)
Theorem surrogate_in_prompt_aborts_generation :
  forall json_loads self st t_get t_set prompt http params c,
    In c prompt -> surrogate c ->
    _get_cache_key st prompt params = Raise UnicodeEncodeError /\
    generate_stream json_loads self st t_get t_set prompt http =
      {| fragments := []; outcome := Raise UnicodeEncodeError; saved := None;
         api_after := self; session_after := st |}.
Proof.
  intros json_loads self st t_get t_set prompt http params c Hin Hc.
  assert (Hk : forall ps, _get_cache_key st prompt ps = Raise UnicodeEncodeError).
  { intros ps. unfold _get_cache_key.
    rewrite (@encode_surrogate (key_content st prompt ps) c); [reflexivity | | exact Hc].
    unfold key_content. apply in_or_app. right. apply in_or_app. now left. }
  split; [apply Hk|].
  unfold generate_stream, generate_stream_body. now rewrite Hk.
Qed.

Lemma surrogate_in_prompt_witness :
  generate_stream Sample.loads Sample.client_cached (Sample.session [Sample.hello])
    200 201 [72; 55357]%N (RequestFailed (py "unreachable")) =
  {| fragments := []; outcome := Raise UnicodeEncodeError; saved := None;
     api_after := Sample.client_cached;
     session_after := Sample.session [Sample.hello] |}.
Proof.
  apply (proj2 (@surrogate_in_prompt_aborts_generation Sample.loads
                  Sample.client_cached (Sample.session [Sample.hello]) 200 201
                  [72; 55357]%N (RequestFailed (py "unreachable"))
                  (generate_params (Sample.session [])) 55357%N
                  (or_intror (or_introl eq_refl))
                  ltac:(unfold surrogate; lia))).
Defined.

(** X13.  The key is coarser than the prompt.  When a message inside the trailing
    window is changed past its hundredth character only, the formatted
    prompt sent to the model changes, for the prompt carries the whole
    content, but the cache key does not: the two requests share one cache
    entry. *)
Theorem truncation_shares_key_across_prompts :
  forall st prompt params pre m post text,
    messages st = pre ++ m :: post ->
    post <> [] -> (length post <= 9)%nat ->
    firstn 100 text = firstn 100 (content m) ->
    text <> content m ->
    let st' := with_messages st (pre ++ with_content m text :: post) in
    _get_cache_key st' prompt params = _get_cache_key st prompt params /\
    format_prompt st' prompt <> format_prompt st prompt.
Proof.
  intros st prompt params pre m post text Hm Hpost Hlen Hcut Hne st'.
  assert (Hm' : messages st' = pre ++ with_content m text :: post) by reflexivity.
  split.
  - unfold _get_cache_key, key_content.
    rewrite (@cache_context_split st' pre (with_content m text) post Hm' Hpost Hlen).
    rewrite (@cache_context_split st pre m post Hm Hpost Hlen).
    cbn [role content with_content]. now rewrite Hcut.
  - intros H. apply Hne. rewrite !format_prompt_window in H.
    do 6 (apply app_inv_head in H).
    rewrite Hm, Hm', !last_messages_split in H by assumption.
    rewrite !flat_map_app in H. cbn [flat_map] in H.
    rewrite <- !app_assoc in H. apply app_inv_head in H.
    unfold turn_view in H. cbn [fst snd role content with_content] in H.
    do 3 (apply app_inv_head in H). now apply app_inv_tail in H.
Qed.

Lemma truncation_shares_key_witness :
  _get_cache_key (Sample.session [Sample.long_y; Sample.hello]) (py "Hello")
    (generate_stream_params (Sample.session []))
  = _get_cache_key (Sample.session [Sample.long_x; Sample.hello]) (py "Hello")
      (generate_stream_params (Sample.session [])) /\
  format_prompt (Sample.session [Sample.long_y; Sample.hello]) (py "Hello")
  <> format_prompt (Sample.session [Sample.long_x; Sample.hello]) (py "Hello").
Proof.
  apply (@truncation_shares_key_across_prompts
           (Sample.session [Sample.long_x; Sample.hello]) (py "Hello")
           (generate_stream_params (Sample.session []))
           [] Sample.long_x [Sample.hello] (content Sample.long_y)
           eq_refl ltac:(discriminate) ltac:(simpl; lia) eq_refl
           ltac:(vm_compute; discriminate)).
Defined.

(** ** Streaming generation, continued *)

Lemma get_from_cache_keeps_ttl : forall self now key,
  ttl (simple_cache (snd (get_from_cache self now key)))
    = ttl (simple_cache self).
Proof.
  intros self now key. unfold get_from_cache.
  destruct (redis_client self) as [client|].
  - now destruct (redis_get client key).
  - unfold SimpleCache.get.
    destruct (dict_get key (cache (simple_cache self))) as [[v ts]|]; [|reflexivity].
    now destruct (now - ts <? ttl (simple_cache self)).
Qed.

(** X14.  Replay.  With the in-memory backend and room for at least one entry,
    a call that missed the cache and read its stream to the end with a
    non-empty text is replayed by the next call for the same request:
    while the TTL has not run out since the write, that call yields the
    same text character by character and leaves the store untouched,
    whatever the network would do; once the TTL has run out, it is a miss
    again. *)
Theorem completed_stream_is_replayed :
  forall json_loads self st t1 t_set prompt lines acc cache_key t2 t_set2 http2,
    redis_client self = None ->
    1 <= max_size (simple_cache self) ->
    _get_cache_key st prompt (generate_stream_params st) = Return cache_key ->
    falsy (fst (get_from_cache self t1 cache_key)) ->
    read_lines json_loads lines start = (acc, None) ->
    full_response acc <> [] ->
    let first := generate_stream json_loads self st t1 t_set prompt
                   (Streaming lines None) in
    let second := generate_stream json_loads (api_after first)
                    (session_after first) t2 t_set2 prompt http2 in
    (t2 - t_set < ttl (simple_cache self) ->
       fragments second = map (fun char => [char]) (full_response acc) /\
       concat (fragments second) = concat (fragments first) /\
       outcome second = Return tt /\ saved second = None /\
       api_after second = api_after first) /\
    (ttl (simple_cache self) <= t2 - t_set ->
       falsy (fst (get_from_cache (api_after first) t2 cache_key))).
Proof.
  intros json_loads self st t1 t_set prompt lines acc cache_key t2 t_set2 http2
    Hr Hm Hk Hf Hread Hfull first second.
  destruct (get_from_cache self t1 cache_key) as [cached self1] eqn:Hget.
  cbn [fst] in Hf.
  pose proof (get_from_cache_keeps_config self t1 cache_key) as [Hr1 Hm1].
  pose proof (get_from_cache_keeps_ttl self t1 cache_key) as Ht1.
  rewrite Hget in Hr1, Hm1, Ht1. cbn [snd] in Hr1, Hm1, Ht1.
  assert (Hfirst : first =
    {| fragments := yielded acc; outcome := Return tt;
       saved := Some (cache_key, full_response acc);
       api_after := save_to_cache self1 t_set cache_key (full_response acc);
       session_after :=
         add_tokens st (word_count (format_prompt st prompt))
           (tokens_received acc) |}).
  { subst first.
    rewrite (@generate_stream_miss json_loads self st t1 t_set prompt
               (Streaming lines None) cache_key cached self1 Hk Hget Hf).
    rewrite Hread. destruct (full_response acc); [congruence | reflexivity]. }
  assert (Hcat : concat (yielded acc) = full_response acc).
  { eapply read_lines_concat; [|exact Hread]. reflexivity. }
  destruct (@save_then_get_from_cache self1 t_set t2 cache_key (full_response acc))
    as (_ & Hhit & Hexp); [congruence | lia |].
  rewrite Ht1 in Hhit, Hexp.
  subst second. rewrite Hfirst. cbn [api_after session_after fragments].
  set (self2 := save_to_cache self1 t_set cache_key (full_response acc)) in *.
  set (st2 := add_tokens st (word_count (format_prompt st prompt))
                (tokens_received acc)).
  assert (Hk2 : _get_cache_key st2 prompt (generate_stream_params st2)
                = Return cache_key) by exact Hk.
  split.
  - intros Hlt.
    rewrite (@generate_stream_hit json_loads self2 st2 t2 t_set2 prompt http2
               cache_key (full_response acc) self2 Hk2 (Hhit Hlt) Hfull).
    cbn [fragments outcome saved api_after].
    rewrite concat_chars, Hcat. repeat split.
  - intros Hge. left. exact (Hexp Hge).
Qed.

Lemma completed_stream_is_replayed_witness :
  let st := Sample.session [Sample.hello] in
  let first :=
    generate_stream Sample.loads Sample.client st 100 101 (py "Hello")
      (Streaming [Sample.line_a; Sample.line_b; Sample.line_token] None) in
  let second :=
    generate_stream Sample.loads (api_after first) (session_after first)
      3700 3701 (py "Hello") (RequestFailed (py "unreachable")) in
  concat (fragments second) = concat (fragments first) /\
  saved second = None.
Proof.
  intros st first second.
  destruct (@completed_stream_is_replayed Sample.loads Sample.client st 100 101
              (py "Hello")
              [Sample.line_a; Sample.line_b; Sample.line_token]
              {| yielded := [py "a"; py "b"; py " c"];
                 full_response := py "ab c"; tokens_received := 3 |}
              Sample.hello_key 3700 3701 (RequestFailed (py "unreachable"))
              eq_refl ltac:(simpl; lia) ltac:(vm_compute; reflexivity)
              (or_introl eq_refl) ltac:(vm_compute; reflexivity)
              ltac:(discriminate)) as [H _].
  destruct (H ltac:(simpl; lia)) as (_ & Hcat & _ & Hs & _).
  split; assumption.
Defined.

(** X15.  Failures of Redis never break a stream: if the lookup raises, the call
    is a miss; the response is read and yielded in full and the generator
    ends normally, whether or not the write that follows succeeds. *)
Theorem redis_failure_does_not_break_stream :
  forall json_loads self client st t_get t_set prompt lines acc cache_key e,
    redis_client self = Some client ->
    _get_cache_key st prompt (generate_stream_params st) = Return cache_key ->
    redis_get client cache_key = Raise e ->
    read_lines json_loads lines start = (acc, None) ->
    let r := generate_stream json_loads self st t_get t_set prompt
               (Streaming lines None) in
    fragments r = yielded acc /\ concat (fragments r) = full_response acc /\
    outcome r = Return tt /\ api_after r = self.
Proof.
  intros json_loads self client st t_get t_set prompt lines acc cache_key e
    Hr Hk Hget Hread r.
  assert (Hlook : get_from_cache self t_get cache_key = (None, self)).
  { unfold get_from_cache. now rewrite Hr, Hget. }
  subst r.
  rewrite (@generate_stream_miss json_loads self st t_get t_set prompt
             (Streaming lines None) cache_key None self Hk Hlook (or_introl eq_refl)).
  rewrite Hread.
  assert (Hcat : concat (yielded acc) = full_response acc).
  { eapply read_lines_concat; [|exact Hread]. reflexivity. }
  destruct (full_response acc) as [|c s] eqn:Hfull;
    cbn [fragments outcome api_after]; rewrite ?Hcat; repeat split.
  unfold save_to_cache. rewrite Hr.
  now destruct (redis_setex client cache_key (cache_ttl self) (c :: s)).
Qed.

Lemma redis_failure_witness :
  let down := {| redis_get := fun _ => Raise RedisError;
                 redis_setex := fun _ _ _ => Raise RedisError;
                 redis_flushall := Raise RedisError |} in
  let self := {| redis_client := Some down;
                 simple_cache := simple_cache Sample.client;
                 cache_ttl := 3600 |} in
  let r := generate_stream Sample.loads self (Sample.session [Sample.hello])
             100 101 (py "Hello")
             (Streaming [Sample.line_a; Sample.line_b] None) in
  fragments r = [py "a"; py "b"] /\ outcome r = Return tt.
Proof.
  intros down self r.
  destruct (@redis_failure_does_not_break_stream Sample.loads self down
              (Sample.session [Sample.hello]) 100 101 (py "Hello")
              [Sample.line_a; Sample.line_b]
              {| yielded := [py "a"; py "b"]; full_response := py "ab";
                 tokens_received := 2 |}
              Sample.hello_key RedisError eq_refl
              ltac:(vm_compute; reflexivity) eq_refl
              ltac:(vm_compute; reflexivity)) as (Hf & _ & Ho & _).
  split; assumption.
Defined.

Lemma count_words_nonneg : forall s in_word, 0 <= count_words in_word s.
Proof.
  induction s as [|c s IH]; intros in_word; simpl; [lia|].
  destruct (isspace c); [apply IH|].
  specialize (IH true). destruct in_word; lia.
Qed.

Lemma read_lines_tokens : forall json_loads lines acc acc' stop,
  read_lines json_loads lines acc = (acc', stop) ->
  tokens_received acc <= tokens_received acc'.
Proof.
  intros json_loads. induction lines as [|line lines IH]; intros acc acc' stop;
    simpl.
  - intros [= <- _]. lia.
  - destruct (process_line json_loads line) as [|frags text n|e] eqn:E.
    + apply IH.
    + intros H. apply IH in H. cbn [tokens_received] in H.
      assert (0 <= n); [|lia].
      revert E. unfold process_line. destruct line as [|b line]; [discriminate|].
      destruct (str_eqb (b :: line) (py "data: [DONE]")); [discriminate|].
      destruct (json_loads (payload (b :: line))) as [chunk|e]; cbn [bind];
        [|destruct e; discriminate].
      destruct (on_chunk chunk) as [effect|e] eqn:Ec; [|destruct e; discriminate].
      intros ->. revert Ec. unfold on_chunk.
      set (chunk' := match chunk with JArr (first :: _) => first | _ => chunk end).
      destruct chunk' as [| | | | |items|d]; try discriminate.
      destruct (dict_get (py "generated_text") d) as [[| | | |s| |]|];
        try discriminate.
      * intros [= _ _ <-]. apply count_words_nonneg.
      * destruct (dict_get (py "token") d) as [[| | | | | |token]|];
          try discriminate.
        destruct (dict_get (py "text") token) as [[| | | |s| |]|];
          try discriminate; intros [= _ _ <-]; lia.
    + intros [= <- _]. lia.
Qed.

(** X16.  [generate_stream] writes nothing to the session but the two token
    counters: history and parameters are as before, and neither counter
    ever decreases, a missing counter counting as zero. *)
Theorem generate_stream_only_adds_tokens :
  forall json_loads self st t_get t_set prompt http,
    let r := generate_stream json_loads self st t_get t_set prompt http in
    messages (session_after r) = messages st /\
    max_tokens (session_after r) = max_tokens st /\
    temperature (session_after r) = temperature st /\
    top_p (session_after r) = top_p st /\
    rep_penalty (session_after r) = rep_penalty st /\
    get_default (total_tokens_sent st) 0
      <= get_default (total_tokens_sent (session_after r)) 0 /\
    get_default (total_tokens_received st) 0
      <= get_default (total_tokens_received (session_after r)) 0.
Proof.
  intros json_loads self st t_get t_set prompt http r.
  assert (H : session_after r = st \/
              exists sent received, 0 <= sent /\ 0 <= received /\
                session_after r = add_tokens st sent received).
  { subst r. unfold generate_stream, generate_stream_body.
    pose proof (count_words_nonneg (format_prompt st prompt) false) as Hsent.
    fold (word_count (format_prompt st prompt)) in Hsent.
    destruct (_get_cache_key st prompt (generate_stream_params st)) as [key|e];
      [|destruct e; now left].
    destruct (get_from_cache self t_get key) as [[[|c s]|] self'].
    - destruct http as [e|lines broken]; [now left|].
      destruct (read_lines json_loads lines start) as [acc [e|]] eqn:Hread;
        [destruct e; now left|].
      destruct broken; [now left|].
      destruct (full_response acc); [now left|]. right.
      exists (word_count (format_prompt st prompt)), (tokens_received acc).
      apply read_lines_tokens in Hread. cbn [tokens_received start] in Hread.
      repeat split; assumption.
    - right. exists (word_count (format_prompt st prompt)), (word_count (c :: s)).
      repeat split; [assumption | apply count_words_nonneg].
    - destruct http as [e|lines broken]; [now left|].
      destruct (read_lines json_loads lines start) as [acc [e|]] eqn:Hread;
        [destruct e; now left|].
      destruct broken; [now left|].
      destruct (full_response acc); [now left|]. right.
      exists (word_count (format_prompt st prompt)), (tokens_received acc).
      apply read_lines_tokens in Hread. cbn [tokens_received start] in Hread.
      repeat split; assumption. }
  destruct H as [-> | (sent & received & Hs & Hr & ->)].
  - repeat split; lia.
  - cbn [add_tokens messages max_tokens temperature top_p rep_penalty
         total_tokens_sent total_tokens_received get_default].
    repeat split; lia.
Qed.

(** X17.  Blank lines and the [data: [DONE]] line are transparent: the run on a
    response is the run on the response without them.  In particular the
    sentinel does not end the stream; chunks after it are read and
    yielded like any other. *)
Theorem blank_and_done_lines_are_transparent :
  forall json_loads self st t_get t_set prompt
         (before : list bytes) (line : bytes) (after : list bytes) broken,
    line = [] \/ line = py "data: [DONE]" ->
    generate_stream json_loads self st t_get t_set prompt
      (Streaming (before ++ line :: after) broken)
    = generate_stream json_loads self st t_get t_set prompt
        (Streaming (before ++ after) broken).
Proof.
  intros json_loads self st t_get t_set prompt before line after broken H.
  assert (Hskip : process_line json_loads line = Skipped)
    by (destruct H as [-> | ->]; reflexivity).
  unfold generate_stream, generate_stream_body. cbv beta iota zeta.
  now rewrite (@read_lines_skip json_loads before line after start Hskip).
Qed.

Lemma blank_and_done_lines_witness :
  generate_stream Sample.loads Sample.client (Sample.session [Sample.hello])
    100 101 (py "Hello")
    (Streaming ([Sample.line_a] ++ py "data: [DONE]" :: [Sample.line_b]) None)
  = generate_stream Sample.loads Sample.client (Sample.session [Sample.hello])
      100 101 (py "Hello")
      (Streaming ([Sample.line_a] ++ [Sample.line_b]) None).
Proof.
  apply blank_and_done_lines_are_transparent. now right.
Defined.

(** ** File reading *)

Lemma decode_raises_only_decode_error : forall n data e,
  (length data <= n)%nat -> decode data = Raise e -> e = UnicodeDecodeError.
Proof.
  induction n as [|n IH]; intros data e Hlen H.
  - destruct data; [discriminate | simpl in Hlen; lia].
  - destruct data as [|b0 rest]; [discriminate|].
    simpl in Hlen, H.
    assert (Hrec : forall (tail : bytes) (k : pystr -> call pystr) e',
      (length tail <= n)%nat ->
      (forall s, k s <> Raise e') ->
      bind (decode tail) k = Raise e' -> e' = UnicodeDecodeError).
    { intros tail k e' Ht Hk Hb. destruct (decode tail) as [s|e0] eqn:E; cbn [bind] in Hb.
      - now apply Hk in Hb.
      - injection Hb as <-. now apply (IH tail). }
    destruct (b0 <? 128)%N;
      [apply (Hrec rest _ e) in H; [assumption | lia | discriminate]|].
    destruct rest as [|b1 rest1]; [congruence|].
    destruct ((194 <=? b0)%N && (b0 <=? 223)%N).
    { destruct (continuation b1); [|congruence].
      apply (Hrec rest1 _ e) in H; [assumption | simpl in Hlen; lia | discriminate]. }
    destruct rest1 as [|b2 rest2]; [congruence|].
    destruct ((224 <=? b0)%N && (b0 <=? 239)%N).
    { match type of H with (if ?c then _ else _) = _ => destruct c end;
        [|congruence].
      apply (Hrec rest2 _ e) in H; [assumption | simpl in Hlen; lia | discriminate]. }
    destruct rest2 as [|b3 rest3]; [congruence|].
    match type of H with (if ?c then _ else _) = _ => destruct c end;
      [|congruence].
    apply (Hrec rest3 _ e) in H; [assumption | simpl in Hlen; lia | discriminate].
Qed.

Lemma decode_skips_bom : forall rest,
  decode (239 :: 187 :: 191 :: rest)%N =
  bind (decode rest) (fun s => Return (65279%N :: s)).
Proof. reflexivity. Qed.

Lemma startswith_bom : forall data,
  startswith [239; 187; 191]%N data = true ->
  exists rest, data = (239 :: 187 :: 191 :: rest)%N.
Proof.
  intros [|b0 [|b1 [|b2 rest]]] H; cbn [startswith] in H;
    try (rewrite ?andb_false_r in H; discriminate).
  apply andb_true_iff in H. destruct H as [H0 H].
  apply andb_true_iff in H. destruct H as [H1 H].
  apply andb_true_iff in H. destruct H as [H2 _].
  apply N.eqb_eq in H0, H1, H2. subst. now exists rest.
Qed.

(** X18.  [read_file_content] never fails and never returns [None]: content
    that is valid UTF-8 is read as UTF-8, a leading byte order mark staying
    in the text as U+FEFF, and any other content is read as Latin-1, one
    character per byte.  The encodings listed after Latin-1 are never
    reached, and [utf-8-sig] never succeeds where [utf-8] failed. *)
Theorem read_file_content_never_fails : forall content,
  read_file_content content =
    Return (Some (match decode content with
                  | Return text => text
                  | Raise _ => content
                  end)) /\
  (forall rest text,
     content = (239 :: 187 :: 191 :: rest)%N ->
     decode rest = Return text ->
     read_file_content content = Return (Some (65279%N :: text))).
Proof.
  intros content.
  assert (Hmain : read_file_content content =
    Return (Some (match decode content with
                  | Return text => text
                  | Raise _ => content
                  end))).
  { unfold read_file_content, SUPPORTED_ENCODINGS.
    cbn [try_encodings bytes_decode].
    destruct (decode content) as [text|e] eqn:E; [reflexivity|].
    pose proof (@decode_raises_only_decode_error (length content) content e
                  (le_n _) E) as He.
    subst e.
    destruct (startswith [239; 187; 191]%N content) eqn:Hb.
    - destruct (startswith_bom _ Hb) as [rest ->].
      rewrite decode_skips_bom in E. cbn [skipn].
      destruct (decode rest) as [s|e'] eqn:Er; [discriminate|].
      cbn [bind] in E. injection E as E. subst e'. reflexivity.
    - reflexivity. }
  split; [exact Hmain|].
  intros rest text -> Hd. rewrite Hmain, decode_skips_bom, Hd. reflexivity.
Qed.

(** ** Backend selection *)

Lemma save_to_cache_keeps_config : forall self now key response,
  redis_client (save_to_cache self now key response) = redis_client self /\
  max_size (simple_cache (save_to_cache self now key response))
    = max_size (simple_cache self) /\
  ttl (simple_cache (save_to_cache self now key response))
    = ttl (simple_cache self).
Proof.
  intros self now key response. unfold save_to_cache.
  destruct (redis_client self) as [client|] eqn:Hr.
  - destruct (redis_setex client key (cache_ttl self) response); auto.
  - destruct (SimpleCache.setex (simple_cache self) now key (cache_ttl self) response)
      as [c|e] eqn:E; cbn; [|auto].
    rewrite SimpleCache_setex_eq in E.
    destruct (setex_keeps_config _ _ _ _ _ E). auto.
Qed.

(** X19.  The backend is chosen once.  When the start-up [ping] fails the client
    has no Redis connection, and no later operation changes which backend a
    client uses: lookups, writes, clearing and whole generation runs all
    leave the connection, the capacity and the TTL of the client as they
    were.  A Redis that comes back later is never used, and one that goes
    away is never replaced by the in-memory store. *)
Theorem backend_choice_is_permanent :
  forall json_loads T C client e self st t_get t_set prompt http now key response,
    redis_client (api_init T C (initialize_redis client (Raise e))) = None /\
    (let after := snd (get_from_cache self now key) in
     redis_client after = redis_client self /\
     max_size (simple_cache after) = max_size (simple_cache self) /\
     ttl (simple_cache after) = ttl (simple_cache self)) /\
    (let after := save_to_cache self now key response in
     redis_client after = redis_client self /\
     max_size (simple_cache after) = max_size (simple_cache self) /\
     ttl (simple_cache after) = ttl (simple_cache self)) /\
    (let after := clear_cache self in
     redis_client after = redis_client self /\
     max_size (simple_cache after) = max_size (simple_cache self) /\
     ttl (simple_cache after) = ttl (simple_cache self)) /\
    (let after :=
       api_after (generate_stream json_loads self st t_get t_set prompt http) in
     redis_client after = redis_client self /\
     max_size (simple_cache after) = max_size (simple_cache self) /\
     ttl (simple_cache after) = ttl (simple_cache self)).
Proof.
  intros json_loads T C client e self st t_get t_set prompt http now key response.
  assert (Hget : forall t k,
    redis_client (snd (get_from_cache self t k)) = redis_client self /\
    max_size (simple_cache (snd (get_from_cache self t k)))
      = max_size (simple_cache self) /\
    ttl (simple_cache (snd (get_from_cache self t k))) = ttl (simple_cache self)).
  { intros t k. destruct (get_from_cache_keeps_config self t k) as [H1 H2].
    pose proof (get_from_cache_keeps_ttl self t k). auto. }
  split; [reflexivity|]. split; [apply Hget|].
  split; [apply save_to_cache_keeps_config|]. split.
  - unfold clear_cache. destruct (redis_client self) as [c|] eqn:Hr.
    + destruct (redis_flushall c); auto.
    + cbn. auto.
  - cbv zeta. unfold generate_stream, generate_stream_body.
    destruct (_get_cache_key st prompt (generate_stream_params st)) as [k|e'];
      [|destruct e'; cbn; auto].
    specialize (Hget t_get k).
    destruct (get_from_cache self t_get k) as [cached self']. cbn [snd] in Hget.
    assert (Hsave : forall text,
      redis_client (save_to_cache self' t_set k text) = redis_client self /\
      max_size (simple_cache (save_to_cache self' t_set k text))
        = max_size (simple_cache self) /\
      ttl (simple_cache (save_to_cache self' t_set k text))
        = ttl (simple_cache self)).
    { intros text. destruct (save_to_cache_keeps_config self' t_set k text)
        as (H1 & H2 & H3). destruct Hget as (G1 & G2 & G3).
      repeat split; congruence. }
    destruct cached as [[|c s]|]; cbn [outcome api_after]; try exact Hget;
      (destruct http as [e'|lines broken]; cbn [outcome api_after];
       [exact Hget|];
       destruct (read_lines json_loads lines start) as [acc [e'|]];
       [destruct e'; cbn [outcome api_after]; exact Hget|];
       destruct broken; cbn [outcome api_after]; [exact Hget|];
       destruct (full_response acc); cbn [outcome api_after];
       [exact Hget | apply Hsave]).
Qed.
